(** * CoreRun: a shallow embedding of the container runtime's orchestration,
      network manager, IP allocator and network drivers.

    External commands ([ip], [iptables], [ping]), file-system writes and
    [setns] are the program's effects on the host; they are modelled as an
    environment of oracles ([Env]) whose answers the code inspects, and the
    commands issued are recorded in the state so their arguments can be
    compared.  A Rust panic ([unwrap] on [None], out-of-range slicing,
    [expect]) is the [Panic] outcome. *)

From Stdlib Require Import ZArith Lia Ascii String.
From stdpp Require Import base gmap strings list.
Import ListNotations.
Open Scope Z_scope.

(* ------------------------------------------------------------------ *)
(** ** Byte strings: the few [str] methods the code uses               *)
(* ------------------------------------------------------------------ *)

(** [str::contains] *)
Fixpoint contains (s pat : string) : bool :=
  String.prefix pat s ||
  match s with
  | EmptyString => false
  | String _ s' => contains s' pat
  end.

(** [str::split(c)]: pieces between the separators, empty pieces kept. *)
Fixpoint split_on (c : Ascii.ascii) (s : string) : list string :=
  match s with
  | EmptyString => [EmptyString]
  | String a s' =>
      let rest := split_on c s' in
      if Ascii.eqb a c then EmptyString :: rest
      else match rest with
           | p :: ps => String a p :: ps
           | [] => [String a EmptyString]
           end
  end.

(** [str::to_lowercase] on ASCII letters (no non-ASCII character lowers to
    one of the letters of ["tcp"], ["udp"] or ["upd"]). *)
Definition lower_ascii (a : Ascii.ascii) : Ascii.ascii :=
  let n := Ascii.nat_of_ascii a in
  if (Nat.leb 65 n && Nat.leb n 90)%bool then Ascii.ascii_of_nat (n + 32) else a.

Fixpoint to_lowercase (s : string) : string :=
  match s with
  | EmptyString => EmptyString
  | String a s' => String (lower_ascii a) (to_lowercase s')
  end.

Definition digit_value (a : Ascii.ascii) : option Z :=
  let n := Ascii.nat_of_ascii a in
  if (Nat.leb 48 n && Nat.leb n 57)%bool then Some (Z.of_nat n - 48) else None.

Fixpoint dec_digits (acc : Z) (s : string) : option Z :=
  match s with
  | EmptyString => Some acc
  | String a s' =>
      match digit_value a with
      | Some d => dec_digits (acc * 10 + d) s'
      | None => None
      end
  end.

(** [<uN as FromStr>::from_str]: an optional ['+'] (not alone), then at
    least one decimal digit, value at most [max]. *)
Definition parse_uint (max : Z) (s : string) : option Z :=
  let digits :=
    match s with
    | String "+"%char (String _ _ as r) => r
    | _ => s
    end in
  match digits with
  | EmptyString => None
  | _ => match dec_digits 0 digits with
         | Some v => if v <=? max then Some v else None
         | None => None
         end
  end.

Definition parse_u16 := parse_uint 65535.
Definition parse_u8 := parse_uint 255.

(** Decimal rendering ([Display] of an unsigned integer). *)
Fixpoint dec_aux (fuel : nat) (n : Z) (acc : string) : string :=
  match fuel with
  | O => acc
  | S f =>
      let acc' := String (Ascii.ascii_of_nat (48 + Z.to_nat (n mod 10))) acc in
      if n <? 10 then acc' else dec_aux f (n / 10) acc'
  end.

Definition z_to_dec (n : Z) : string := dec_aux 20 n EmptyString.

(* ------------------------------------------------------------------ *)
(** ** Errors and outcomes                                              *)
(* ------------------------------------------------------------------ *)

(** Modelled from the spec: the [error] module (section 7, error kinds) is
    not among the sources; its variants carry a message. *)
Inductive ContainerError :=
| RootRequired
| NamespaceSetup (message : string)
| Cgroup (message : string)
| Filesystem (message : string)
| Volume (message : string)
| Network (message : string)
| ProcessExecution (message : string)
| InvalidConfiguration (message : string)
| Io (message : string).

(** A call returns [Ok], returns an [Err], or the process panics. *)
Inductive res (A : Type) :=
| Ok (a : A)
| Err (e : ContainerError)
| Panic (msg : string).
Arguments Ok {A} a.
Arguments Err {A} e.
Arguments Panic {A} msg.

Definition unwrap_panic : string := "called `Option::unwrap()` on a `None` value".

(* ------------------------------------------------------------------ *)
(** ** Port mappings ([network/mod.rs])                                 *)
(* ------------------------------------------------------------------ *)

Module Protocol.
Inductive t := UDP | TCP.
End Protocol.

Record PortMapping := mkPortMapping {
  host_port : Z;
  container_port : Z;
  protocol : Protocol.t
}.

(** [PortMapping::parse] *)
Definition PortMapping_parse (s : string) : res PortMapping :=
  let parts := split_on "/"%char s in
  let port_part := List.hd EmptyString parts in
  let protocol_r :=
    match parts with
    | _ :: p1 :: _ =>
        let l := to_lowercase p1 in
        if String.eqb l "tcp" then Ok Protocol.TCP
        else if String.eqb l "upd" then Ok Protocol.UDP
        else Err (Network ("Invalid protocol: " ++ p1))
    | _ => Ok Protocol.TCP
    end in
  match protocol_r with
  | Err e => Err e
  | Panic m => Panic m
  | Ok protocol =>
      match split_on ":"%char port_part with
      | [h; c] =>
          match parse_u16 h with
          | None => Err (Network ("Invalid host port: " ++ h))
          | Some hp =>
              match parse_u16 c with
              | None => Err (Network ("Invalid container port: " ++ c))
              | Some cp => Ok (mkPortMapping hp cp protocol)
              end
          end
      | _ => Err (Network "Port mapping must be in format HOST:CONTAINER")
      end
  end.

(* ------------------------------------------------------------------ *)
(** ** The host: oracles for effects, and the program's state           *)
(* ------------------------------------------------------------------ *)

(** [std::process::Output] of a command that could be spawned. *)
Record Output := mkOutput {
  status_success : bool;
  stdout : string;
  stderr : string
}.

(** The answers of the host to the program's effects.
    [cmd_output argv] is [Command::new(argv[0]).args(..).output()]:
    [None] when the command cannot be spawned.
    [fs_write_ok path] tells whether [fs::write(path, ..)] succeeds.
    [self_ns_open_ok] tells whether [/proc/self/ns/net] can be opened;
    [pid_netns pid] is the namespace behind [/proc/<pid>/ns/net] ([None]:
    cannot be opened); [setns_ok ns] tells whether [setns] into [ns]
    succeeds. *)
Record Env := mkEnv {
  cmd_output : list string -> option Output;
  fs_write_ok : string -> bool;
  self_ns_open_ok : bool;
  pid_netns : Z -> option Z;
  setns_ok : Z -> bool
}.

(** An IPv4 network as [ipnetwork::Ipv4Network] stores it: an address
    (a 32-bit value) and a prefix length. *)
Record Ipv4Network := mkIpv4Network { nw_ip : Z; nw_prefix : Z }.

(** [Ipv4Network::network()]: the address with the host bits cleared. *)
Definition network_addr (n : Ipv4Network) : Z :=
  Z.land (nw_ip n) (Z.shiftl (Z.ones (nw_prefix n)) (32 - nw_prefix n)).

(** [Ipv4Network::size()]: [2^(32 - prefix)] addresses; [iter()] runs
    from [network()] to [broadcast()], that is over
    [network() + 0 .. network() + size() - 1]. *)
Definition nw_size (n : Ipv4Network) : Z := 2 ^ (32 - nw_prefix n).

(** [Ipv4Network::iter().nth(k)] *)
Definition iter_nth (n : Ipv4Network) (k : Z) : option Z :=
  if (0 <=? k) && (k <? nw_size n) then Some (network_addr n + k) else Datatypes.None.

(** [Ipv4Addr] as text, [a.b.c.d]. *)
Definition ipv4_to_string (ip : Z) : string :=
  z_to_dec (Z.shiftr ip 24 mod 256) ++ "." ++
  z_to_dec (Z.shiftr ip 16 mod 256) ++ "." ++
  z_to_dec (Z.shiftr ip 8 mod 256) ++ "." ++
  z_to_dec (ip mod 256).

(** [Display] of [Ipv4Network]: [addr/prefix]. *)
Definition network_to_string (n : Ipv4Network) : string :=
  ipv4_to_string (nw_ip n) ++ "/" ++ z_to_dec (nw_prefix n).

(** [IpAllocator]: the subnet and the [HashSet] of held addresses. *)
Record IpAllocator := mkIpAllocator {
  subnet : Ipv4Network;
  allocated : gset Z
}.

Record Bridge := mkBridge { bridge_name : string }.

(** [NetworkConfig] of [net_manager.rs]. *)
Record NetworkConfig := mkNetworkConfig {
  nc_name : string;
  nc_bridge : Bridge;
  nc_subnet : Ipv4Network;
  nc_gateway : Z;
  nc_allocator : IpAllocator
}.

Module NetworkMode.
Inductive t :=
  | Bridge (network_name : string)
  | Host
  | None
  | Container (container_id : string).
End NetworkMode.

Record ContainerNetwork := mkContainerNetwork {
  mode : NetworkMode.t;
  ip_address : option Z;
  gateway : option Z;
  veth_host : option string;
  veth_container : option string;
  ports : list PortMapping
}.

(** The state: the current network namespace of the process, the [setns]
    calls made (most recent first), the commands run (in order), and the
    two maps of the [NetworkManager]. *)
Record St := mkSt {
  net_ns : Z;
  setns_log : list Z;
  cmd_log : list (list string);
  networks : gmap string NetworkConfig;
  container_networks : gmap string ContainerNetwork
}.

Definition set_net_ns (n : Z) (st : St) : St :=
  mkSt n (setns_log st) (cmd_log st) (networks st) (container_networks st).
Definition push_setns (n : Z) (st : St) : St :=
  mkSt (net_ns st) (n :: setns_log st) (cmd_log st) (networks st) (container_networks st).
Definition push_cmd (argv : list string) (st : St) : St :=
  mkSt (net_ns st) (setns_log st) (cmd_log st ++ [argv]) (networks st) (container_networks st).
Definition set_networks (m : gmap string NetworkConfig) (st : St) : St :=
  mkSt (net_ns st) (setns_log st) (cmd_log st) m (container_networks st).
Definition set_container_networks (m : gmap string ContainerNetwork) (st : St) : St :=
  mkSt (net_ns st) (setns_log st) (cmd_log st) (networks st) m.

(** State and error monad: [?] propagates an [Err], a panic unwinds. *)
Definition M (A : Type) : Type := St -> res A * St.

Definition ret {A} (a : A) : M A := fun st => (Ok a, st).
Definition fail {A} (e : ContainerError) : M A := fun st => (Err e, st).
Definition panic {A} (msg : string) : M A := fun st => (Panic msg, st).
Definition bind {A B} (m : M A) (k : A -> M B) : M B :=
  fun st =>
    match m st with
    | (Ok a, st') => k a st'
    | (Err e, st') => (Err e, st')
    | (Panic p, st') => (Panic p, st')
    end.
Definition lift {A} (r : res A) : M A := fun st => (r, st).
(** [let r = f();]: the result as a value, without propagating an error;
    a panic still unwinds. *)
Definition try_ {A} (m : M A) : M (res A) :=
  fun st =>
    match m st with
    | (Panic p, st') => (Panic p, st')
    | (r, st') => (Ok r, st')
    end.
Definition modify (f : St -> St) : M unit := fun st => (Ok tt, f st).
Definition gets {A} (f : St -> A) : M A := fun st => (Ok (f st), st).

Notation "'let!' x := m 'in' k" := (bind m (fun x => k))
  (at level 200, x name, m at level 100, k at level 200).

(** [let _ = f();] *)
Definition ignore {A} (m : M A) : M unit := let! _r := try_ m in ret tt.

Section Driver.
Variable env : Env.

(** [Command::new(..).args(..).output()]: recorded, answered by the host. *)
Definition run_cmd (argv : list string) : M (option Output) :=
  fun st => (Ok (cmd_output env argv), push_cmd argv st).

(** [.output().map_err(|_| Network { message })?] *)
Definition output_or (message : string) (argv : list string) : M Output :=
  let! o := run_cmd argv in
  match o with
  | Some out => ret out
  | None => fail (Network message)
  end.

(** [.output()?]: a spawn failure becomes [ContainerError::Io]. *)
Definition output_io (argv : list string) : M Output :=
  let! o := run_cmd argv in
  match o with
  | Some out => ret out
  | None => fail (Io "spawn failed")
  end.

(** [veth::delete_veth] *)
Definition delete_veth (interface : string) : M unit :=
  let! output := output_or "Failed to delete veth" ["ip"; "link"; "delete"; interface] in
  if negb (status_success output) then
    let stderr := stderr output in
    if negb (contains stderr "Cannot find device") then
      (* the error value is built and dropped *)
      let _ := Network ("Failed to delete veth: " ++ stderr) in ret tt
    else ret tt
  else ret tt.

(** [setns(fd, CLONE_NEWNET)]: the call is recorded; on success the
    process's network namespace becomes [ns]. *)
Definition setns (ns : Z) (message : string) : M unit :=
  fun st =>
    let st' := push_setns ns st in
    if setns_ok env ns then (Ok tt, set_net_ns ns st')
    else (Err (Network message), st').

(** [NetworkNamespace::enter].  The [.context(..)] decoration of the error
    message (error module, not among the sources) is left out. *)
Definition enter {A} (pid : Z) (callback : M A) : M A :=
  let! current_ns := (if self_ns_open_ok env then gets net_ns
                 else fail (Network "Failed to open current network namespace")) in
  let! container_ns := (match pid_netns env pid with
                   | Some ns => ret ns
                   | None => fail (Network ("Failed to open namespace for PID " ++ z_to_dec pid))
                   end) in
  let! _ := setns container_ns "Failed to enter container namespace" in
  let! result := try_ callback in
  let! _ := setns current_ns "Failed to return to original namespace" in
  lift result.

End Driver.

(* ------------------------------------------------------------------ *)
(** ** [IpAllocator] ([net_manager.rs])                                 *)
(* ------------------------------------------------------------------ *)

(** The ping probe of [scan_existing_ips] as the host answers it:
    [true] when [ping -c 1 -W 1 <ip>] could be spawned and succeeded. *)
Definition ping_of (env : Env) (ip : Z) : bool :=
  match cmd_output env ["ping"; "-c"; "1"; "-W"; "1"; ipv4_to_string ip] with
  | Some out => status_success out
  | None => false
  end.

(** The scan loop: [n] consecutive candidates from [a]. *)
Fixpoint scan_from (ping : Z -> bool) (a : Z) (n : nat) (s : gset Z) : gset Z :=
  match n with
  | O => s
  | S n' => scan_from ping (a + 1) n' (if ping a then {[a]} ∪ s else s)
  end.

(** [IpAllocator::scan_existing_ips]: [subnet.iter().skip(2).take(20)],
    every answering address is inserted. *)
Definition scan_existing_ips (ping : Z -> bool) (al : IpAllocator) : IpAllocator :=
  let sn := subnet al in
  mkIpAllocator sn
    (scan_from ping (network_addr sn + 2) (Z.to_nat (Z.min 20 (nw_size sn - 2)))
       (allocated al)).

(** The search loop: the first of [n] consecutive candidates from [a]
    that is not held. *)
Fixpoint first_free (s : gset Z) (a : Z) (n : nat) : option Z :=
  match n with
  | O => None
  | S n' => if decide (a ∈ s) then first_free s (a + 1) n' else Some a
  end.

(** [IpAllocator::allocate]: scan, then the first address of
    [subnet.iter().skip(2)] that is not held is inserted and returned. *)
Definition allocate (ping : Z -> bool) (al : IpAllocator) : res Z * IpAllocator :=
  let al' := scan_existing_ips ping al in
  let sn := subnet al' in
  match first_free (allocated al') (network_addr sn + 2) (Z.to_nat (nw_size sn - 2)) with
  | Some ip => (Ok ip, mkIpAllocator sn ({[ip]} ∪ allocated al'))
  | None => (Err (Network "No available IPs in subnet"), al')
  end.

(** [IpAllocator::release]: [HashSet::remove]. *)
Definition release (ip : Z) (al : IpAllocator) : IpAllocator :=
  mkIpAllocator (subnet al) (allocated al ∖ {[ip]}).

(** A sequence of calls on one allocator; each [allocate] meets its own
    answers to the ping probes. *)
Inductive AllocOp :=
| OpAllocate (ping : Z -> bool)
| OpRelease (ip : Z).

Inductive AllocEvent :=
| Allocated (r : option Z)
| Released (ip : Z).

Fixpoint run_alloc (al : IpAllocator) (ops : list AllocOp) : list AllocEvent * IpAllocator :=
  match ops with
  | [] => ([], al)
  | OpAllocate ping :: ops' =>
      let '(r, al1) := allocate ping al in
      let ev := Allocated (match r with Ok ip => Some ip | _ => Datatypes.None end) in
      let '(evs, al2) := run_alloc al1 ops' in (ev :: evs, al2)
  | OpRelease ip :: ops' =>
      let '(evs, al2) := run_alloc (release ip al) ops' in (Released ip :: evs, al2)
  end.

(** The uniqueness property over a trace: [held] is the set of addresses
    returned by an earlier [allocate] with no [release] of them since. *)
Fixpoint no_reuse (held : gset Z) (evs : list AllocEvent) : Prop :=
  match evs with
  | [] => True
  | Allocated (Some ip) :: evs' => (ip ∉ held) /\ no_reuse ({[ip]} ∪ held) evs'
  | Allocated Datatypes.None :: evs' => no_reuse held evs'
  | Released ip :: evs' => no_reuse (held ∖ {[ip]}) evs'
  end.

(* ------------------------------------------------------------------ *)
(** ** [ipnetwork] parsing and [str] slicing                            *)
(* ------------------------------------------------------------------ *)

(** An octet of [Ipv4Addr::from_str]: one to three decimal digits, no
    leading zero, at most 255. *)
Definition parse_octet (s : string) : option Z :=
  match s with
  | EmptyString => Datatypes.None
  | String "0"%char (String _ _) => Datatypes.None
  | _ => if Nat.leb (String.length s) 3 then
           match dec_digits 0 s with
           | Some v => if v <=? 255 then Some v else Datatypes.None
           | Datatypes.None => Datatypes.None
           end
         else Datatypes.None
  end.

Definition parse_ipv4 (s : string) : option Z :=
  match split_on "."%char s with
  | [a; b; c; d] =>
      match parse_octet a, parse_octet b, parse_octet c, parse_octet d with
      | Some a, Some b, Some c, Some d =>
          Some (Z.shiftl a 24 + Z.shiftl b 16 + Z.shiftl c 8 + d)
      | _, _, _, _ => Datatypes.None
      end
  | _ => Datatypes.None
  end.

(** [<Ipv4Network as FromStr>::from_str]: [addr] or [addr/prefix] (one
    slash at most), the prefix a [u8] not above 32. *)
Definition parse_cidr (s : string) : option Ipv4Network :=
  let ok a p :=
    match parse_ipv4 a, p with
    | Some ip, Some pr => if pr <=? 32 then Some (mkIpv4Network ip pr) else Datatypes.None
    | _, _ => Datatypes.None
    end in
  match split_on "/"%char s with
  | [a] => ok a (Some 32)
  | [a; p] => ok a (parse_u8 p)
  | _ => Datatypes.None
  end.

(** [str::is_char_boundary] on the UTF-8 bytes of the string. *)
Definition is_char_boundary (s : string) (i : nat) : bool :=
  match String.get i s with
  | Some b => negb (Nat.leb 128 (Ascii.nat_of_ascii b) && Nat.ltb (Ascii.nat_of_ascii b) 192)
  | Datatypes.None => Nat.eqb i (String.length s)
  end.

(** [&s[i..j]]: panics out of range or off a character boundary. *)
Definition slice (s : string) (i j : nat) : M string :=
  if Nat.leb i j && is_char_boundary s i && is_char_boundary s j then
    ret (String.substring i (j - i) s)
  else panic "byte index is out of bounds or not a char boundary".

Section Drivers.
Variable env : Env.

(* ------------------------------------------------------------------ *)
(** ** [bridge.rs], [veth.rs], [iptables.rs], [network_namespace.rs]    *)
(* ------------------------------------------------------------------ *)

(** [Bridge::exists] *)
Definition bridge_exists (b : Bridge) : M bool :=
  let! o := output_or env "Failed to check bridge existence" ["ip"; "link"; "show"; bridge_name b] in
  ret (status_success o).

(** [Bridge::create]: a failing [ip link add] is not an error (the error
    value is built and dropped). *)
Definition bridge_create (b : Bridge) : M unit :=
  let! ex := bridge_exists b in
  if ex then ret tt
  else let! _o := output_or env "Failed to create bridge"
                    ["ip"; "link"; "add"; "name"; bridge_name b; "type"; "bridge"] in
       ret tt.

(** [Bridge::set_ip] *)
Definition bridge_set_ip (b : Bridge) (ip prefix : Z) : M unit :=
  let! _o := output_or env "Failed to set bridge IP"
               ["ip"; "addr"; "add"; (ipv4_to_string ip ++ "/" ++ z_to_dec prefix)%string;
                "dev"; bridge_name b] in
  ret tt.

(** [Bridge::up] *)
Definition bridge_up (b : Bridge) : M unit :=
  let! _o := output_or env "Failed to bring bridge up" ["ip"; "link"; "set"; bridge_name b; "up"] in
  ret tt.

(** [Bridge::attach_interface] *)
Definition attach_interface (b : Bridge) (interface : string) : M unit :=
  let! _o := output_or env "Failed to attach interface to bridge"
               ["ip"; "link"; "set"; interface; "master"; bridge_name b] in
  let! _o := output_or env "Failed to bring interface up" ["ip"; "link"; "set"; interface; "up"] in
  ret tt.

(** [veth::create_veth_pair] *)
Definition create_veth_pair (vh vc : string) : M unit :=
  let! _o := output_or env "Failed to create veth pair"
               ["ip"; "link"; "add"; vh; "type"; "veth"; "peer"; "name"; vc] in
  ret tt.

(** [veth::move_to_namespace] *)
Definition move_to_namespace (interface : string) (pid : Z) : M unit :=
  let! _o := output_or env "Failed to move interface to namespace"
               ["ip"; "link"; "set"; interface; "netns"; z_to_dec pid] in
  ret tt.

(** [NetworkNamespace::setup_loopback] *)
Definition setup_loopback (pid : Z) : M unit :=
  enter env pid
    (let! _o := output_or env "Failed to execute ip command" ["ip"; "link"; "set"; "lo"; "up"] in
     ret tt).

(** The block that renames the peer to [eth0] in [setup_bridge_network]. *)
Definition rename_to_eth0 (vc : string) : M unit :=
  let! _o := output_or env "Failed to rename interface to eth0"
               ["ip"; "link"; "set"; vc; "name"; "eth0"] in
  ret tt.

(** [NetworkNamespace::configure_interface] *)
Definition configure_interface (pid : Z) (interface : string) (ip prefix : Z) : M unit :=
  enter env pid
    (let! _o := output_or env "Failed to set IP address"
                  ["ip"; "addr"; "add"; (ipv4_to_string ip ++ "/" ++ z_to_dec prefix)%string;
                   "dev"; interface] in
     let! _o := output_or env "Failed to bring interface up" ["ip"; "link"; "set"; interface; "up"] in
     ret tt).

(** [NetworkNamespace::add_default_route] *)
Definition add_default_route (pid : Z) (interface : string) (gw : Z) : M unit :=
  enter env pid
    (let! _o := output_or env "Failed to add default route"
                  ["ip"; "route"; "add"; "default"; "via"; ipv4_to_string gw; "dev"; interface] in
     ret tt).

(** [iptables::enable_localhost_routing]: the first write is [expect]ed. *)
Definition enable_localhost_routing (bridge : string) : M unit :=
  if fs_write_ok env "/proc/sys/net/ipv4/conf/all/route_localnet" then
    if fs_write_ok env ("/proc/sys/net/ipv4/conf/" ++ bridge ++ "/route_localnet") then ret tt
    else fail (Network ("Failed to enable route_localnet for " ++ bridge))
  else panic "Failed to enable route_localnet for all".

(** The hairpin rule [setup_nat] appends. *)
Definition hairpin_add_args (subnet : string) : list string :=
  ["iptables"; "-t"; "nat"; "-A"; "POSTROUTING"; "-s"; "127.0.0.1"; "-d"; subnet;
   "-j"; "MASQUERADE"].

(** [iptables::setup_nat].  Every failing status only builds an error
    value and drops it; the read-back of [ip_forward] only feeds a log. *)
Definition setup_nat (bridge subnet : string) : M unit :=
  let! _ := (if fs_write_ok env "/proc/sys/net/ipv4/ip_forward" then ret tt
             else let! _o := output_io env ["sysctl"; "-w"; "net.ipv4.ip_forward=1"] in ret tt) in
  let! _o := output_or env "Failed to setup NAT"
               ["iptables"; "-t"; "nat"; "-A"; "POSTROUTING"; "-s"; subnet; "!"; "-o"; bridge;
                "-j"; "MASQUERADE"] in
  let! _o := output_or env "Failed to add FORWARD rule (incoming)"
               ["iptables"; "-I"; "FORWARD"; "1"; "-i"; bridge; "-j"; "ACCEPT"] in
  let! _o := output_or env "Failed to add FORWARD rule (outgoing)"
               ["iptables"; "-I"; "FORWARD"; "1"; "-o"; bridge; "-j"; "ACCEPT"] in
  let! _v := output_io env ["iptables"; "-t"; "nat"; "-L"; "POSTROUTING"; "-n"] in
  let! _o := output_or env "Failed to add localhost MASQUERADE" (hairpin_add_args subnet) in
  let! _ := ignore (run_cmd env ["iptables"; "-A"; "FORWARD"; "-i"; bridge; "-j"; "ACCEPT"]) in
  let! _ := ignore (run_cmd env ["iptables"; "-A"; "FORWARD"; "-o"; bridge; "-j"; "ACCEPT"]) in
  ret tt.

Definition proto_str (p : Protocol.t) : string :=
  match p with Protocol.TCP => "tcp" | Protocol.UDP => "udp" end.

(** [iptables::add_port_forward] *)
Definition add_port_forward (hp : Z) (ip : Z) (cp : Z) (p : Protocol.t) : M unit :=
  let proto := proto_str p in
  let dest := (ipv4_to_string ip ++ ":" ++ z_to_dec cp)%string in
  let! _o := output_or env "Failed to add PREROUTING DNAT"
               ["iptables"; "-t"; "nat"; "-I"; "PREROUTING"; "1"; "-p"; proto; "--dport";
                z_to_dec hp; "-j"; "DNAT"; "--to-destination"; dest] in
  let! _o := output_or env "Failed to add OUTPUT DNAT"
               ["iptables"; "-t"; "nat"; "-I"; "OUTPUT"; "1"; "-p"; proto; "-d"; "127.0.0.1";
                "--dport"; z_to_dec hp; "-j"; "DNAT"; "--to-destination"; dest] in
  let! _ := ignore (run_cmd env ["iptables"; "-I"; "FORWARD"; "1"; "-p"; proto; "-d";
                                 ipv4_to_string ip; "--dport"; z_to_dec hp; "-j"; "ACCEPT"]) in
  ret tt.

(** [iptables::remove_port_forward] *)
Definition remove_port_forward (hp : Z) (ip : Z) (cp : Z) (p : Protocol.t) : M unit :=
  let proto := proto_str p in
  let dest := (ipv4_to_string ip ++ ":" ++ z_to_dec cp)%string in
  let! _o := output_or env "Failed to add port forward"
               ["iptables"; "-t"; "nat"; "-D"; "PREROUTING"; "-p"; proto; "--dport";
                z_to_dec hp; "-j"; "DNAT"; "--to-destination"; dest] in
  let! _ := ignore (run_cmd env ["iptables"; "-t"; "nat"; "-D"; "OUTPUT"; "-p"; proto; "-d";
                                 "127.0.0.1"; "--dport"; z_to_dec hp; "-j"; "DNAT";
                                 "--to-destination"; dest]) in
  let! _ := ignore (run_cmd env ["iptables"; "-D"; "FORWARD"; "-p"; proto; "-d";
                                 ipv4_to_string ip; "--dport"; z_to_dec cp; "-j"; "ACCEPT"]) in
  ret tt.

End Drivers.

(* ------------------------------------------------------------------ *)
(** ** [NetworkManager] ([net_manager.rs])                              *)
(* ------------------------------------------------------------------ *)

Definition with_allocator (nc : NetworkConfig) (al : IpAllocator) : NetworkConfig :=
  mkNetworkConfig (nc_name nc) (nc_bridge nc) (nc_subnet nc) (nc_gateway nc) al.

Definition insert_container (id : string) (cn : ContainerNetwork) : M unit :=
  modify (fun st => set_container_networks (<[id := cn]> (container_networks st)) st).

(** [for port in &ports { f(port)?; }] *)
Fixpoint for_each_port (f : PortMapping -> M unit) (ps : list PortMapping) : M unit :=
  match ps with
  | [] => ret tt
  | p :: ps' => let! _ := f p in for_each_port f ps'
  end.

Section Manager.
Variable env : Env.

(** [NetworkManager::create_network] *)
Definition create_network (name subnet_s : string) : M unit :=
  let! subnet := match parse_cidr subnet_s with
                 | Some n => ret n
                 | Datatypes.None => fail (Network "Invalid subnet")
                 end in
  let! bridge_nm := (if String.eqb name "bridge" then ret "corerun0"
                     else let! pre := slice name 0 (Nat.min 8 (String.length name)) in
                          ret ("br-" ++ pre)%string) in
  let bridge := mkBridge bridge_nm in
  let! _ := bridge_create env bridge in
  let! gw := match iter_nth subnet 1 with
             | Some g => ret g
             | Datatypes.None => panic unwrap_panic
             end in
  let! _ := bridge_set_ip env bridge gw (nw_prefix subnet) in
  let! _ := bridge_up env bridge in
  let! _ := enable_localhost_routing env bridge_nm in
  let! _ := setup_nat env bridge_nm (network_to_string subnet) in
  let config := mkNetworkConfig name bridge subnet gw (mkIpAllocator subnet ∅) in
  modify (fun st => set_networks (<[name := config]> (networks st)) st).

(** [NetworkManager::new]: two empty maps, then the default network. *)
Definition NetworkManager_new : M unit :=
  let! _ := modify (fun st => set_container_networks ∅ (set_networks ∅ st)) in
  create_network "bridge" "172.17.0.0/16".

(** [NetworkManager::setup_bridge_network].  The [networks] guard is held
    throughout and the allocator is mutated in place, so the allocation
    stays recorded whatever happens afterwards. *)
Definition setup_bridge_network (container_id : string) (pid : Z) (network_name : string)
    (ports : list PortMapping) : M ContainerNetwork :=
  let! nets := gets networks in
  let! network := match nets !! network_name with
                  | Some n => ret n
                  | Datatypes.None => panic unwrap_panic
                  end in
  let '(r, al') := allocate (ping_of env) (nc_allocator network) in
  let network := with_allocator network al' in
  let! _ := modify (set_networks (<[network_name := network]> nets)) in
  let! container_ip := lift r in
  let! _ := slice container_id 0 12 in
  let! sfx := slice container_id 10 17 in
  let veth_host := ("veth" ++ sfx)%string in
  let veth_container := ("vethc" ++ sfx)%string in
  let! _ := create_veth_pair env veth_host veth_container in
  let! _ := attach_interface env (nc_bridge network) veth_host in
  let! _ := move_to_namespace env veth_container pid in
  let! _ := setup_loopback env pid in
  let! _ := ignore (enter env pid (rename_to_eth0 env veth_container)) in
  let! _ := configure_interface env pid "eth0" container_ip (nw_prefix (nc_subnet network)) in
  let! _ := add_default_route env pid "eth0" (nc_gateway network) in
  let! _ := for_each_port (fun p => add_port_forward env (host_port p) container_ip
                                      (container_port p) (protocol p)) ports in
  let cn := mkContainerNetwork (NetworkMode.Bridge network_name) (Some container_ip)
              (Some (nc_gateway network)) (Some veth_host) (Some veth_container) ports in
  let! _ := insert_container container_id cn in
  let! _ := slice container_id 0 12 in
  ret cn.

(** [NetworkManager::setup_host_network] *)
Definition setup_host_network (container_id : string) : M ContainerNetwork :=
  let cn := mkContainerNetwork NetworkMode.Host Datatypes.None Datatypes.None
              Datatypes.None Datatypes.None [] in
  let! _ := insert_container container_id cn in
  let! _ := slice container_id 0 12 in
  ret cn.

(** [NetworkManager::setup_none_network] *)
Definition setup_none_network (container_id : string) (pid : Z) : M ContainerNetwork :=
  let! _ := setup_loopback env pid in
  let cn := mkContainerNetwork NetworkMode.None Datatypes.None Datatypes.None
              Datatypes.None Datatypes.None [] in
  let! _ := insert_container container_id cn in
  let! _ := slice container_id 0 12 in
  ret cn.

(** [NetworkManager::setup_container_network_shared]: the peer's address
    and gateway are copied. *)
Definition setup_container_network_shared (container_id target_container_id : string)
    : M ContainerNetwork :=
  let! cns := gets container_networks in
  let! target_network := match cns !! target_container_id with
                         | Some t => ret t
                         | Datatypes.None => panic unwrap_panic
                         end in
  let cn := mkContainerNetwork (NetworkMode.Container target_container_id)
              (ip_address target_network) (gateway target_network)
              Datatypes.None Datatypes.None [] in
  let! _ := insert_container container_id cn in
  let! _ := slice container_id 0 12 in
  let! _ := slice target_container_id 0 12 in
  ret cn.

(** [NetworkManager::setup_container_network] *)
Definition setup_container_network (container_id : string) (pid : Z) (m : NetworkMode.t)
    (ports : list PortMapping) : M ContainerNetwork :=
  match m with
  | NetworkMode.Bridge network_name => setup_bridge_network container_id pid network_name ports
  | NetworkMode.Host => setup_host_network container_id
  | NetworkMode.None => setup_none_network container_id pid
  | NetworkMode.Container target_id => setup_container_network_shared container_id target_id
  end.

(** [NetworkManager::cleanup_container_network] *)
Definition manager_cleanup_container_network (container_id : string) : M unit :=
  let! cns := gets container_networks in
  match cns !! container_id with
  | Datatypes.None => ret tt
  | Some network =>
      let! _ := modify (set_container_networks (delete container_id cns)) in
      match mode network with
      | NetworkMode.Bridge network_name =>
          let! _ := for_each_port (fun p =>
                      match ip_address network with
                      | Some ip => ignore (remove_port_forward env (host_port p) ip
                                             (container_port p) (protocol p))
                      | Datatypes.None => ret tt
                      end) (ports network) in
          let! _ := match ip_address network with
                    | Some ip =>
                        modify (fun st =>
                          match networks st !! network_name with
                          | Some net =>
                              set_networks (<[network_name := with_allocator net
                                               (release ip (nc_allocator net))]> (networks st)) st
                          | Datatypes.None => st
                          end)
                    | Datatypes.None => ret tt
                    end in
          match veth_host network with
          | Some vh => ignore (delete_veth env vh)
          | Datatypes.None => ret tt
          end
      | _ => ret tt
      end
  end.

(** The hairpin rule [setup::cleanup_container_network] deletes. *)
Definition hairpin_delete_args : list string :=
  ["iptables"; "-t"; "nat"; "-D"; "POSTROUTING"; "-s"; "127.0.0.1"; "-d"; "127.17.0.0/16";
   "-j"; "MASQUERADE"].

(** [setup::cleanup_container_network]: the manager's cleanup, then the
    hairpin rule is deleted (the outcome of that command is dropped). *)
Definition cleanup_container_network (container_id : string) : M unit :=
  let! _ := manager_cleanup_container_network container_id in
  let! _ := ignore (run_cmd env hairpin_delete_args) in
  ret tt.

End Manager.

(* ------------------------------------------------------------------ *)
(** ** The payload's exit ([process.rs])                                *)
(* ------------------------------------------------------------------ *)

(** What [waitpid] reports: [Exited], [Signaled], or another status
    (stopped, continued, ...), on which the loop goes on. *)
Inductive WaitStatus :=
| Exited (status : Z)
| Signaled (signal : Z)
| OtherStatus.

(** One [waitpid] call: a status, [EINTR], or another errno. *)
Inductive WaitResult :=
| WaitOk (s : WaitStatus)
| WaitEintr
| WaitErr (errno : string).

(** [ProcessManager::wait_for_child]: the loop meets the successive
    answers of [waitpid]; [Datatypes.None] when they run out before it
    returns (the process is still waiting). *)
Fixpoint wait_for_child (answers : list WaitResult) : option (res unit) :=
  match answers with
  | [] => Datatypes.None
  | WaitOk (Exited status) :: _ =>
      if negb (status =? 0) then
        Some (Err (ProcessExecution
          ("Container process exited with non-zero status: " ++ z_to_dec status)%string))
      else Some (Ok tt)
  | WaitOk (Signaled sig) :: _ =>
      Some (Err (ProcessExecution ("Container process killed by signal: " ++ z_to_dec sig)%string))
  | WaitOk OtherStatus :: rest => wait_for_child rest
  | WaitEintr :: rest => wait_for_child rest
  | WaitErr e :: _ => Some (Err (ProcessExecution ("waitpid failed: " ++ e)%string))
  end.

(** [ProcessManager::execute_without_pty] once the command path exists
    and the fork succeeded: the parent's [wait_for_child(child)?; Ok(())]. *)
Definition execute_without_pty (answers : list WaitResult) : option (res unit) :=
  match wait_for_child answers with
  | Some (Ok _) => Some (Ok tt)
  | r => r
  end.

(* ------------------------------------------------------------------ *)
(** ** The container process ([setup/run.rs], [volume/impl_volume.rs])  *)
(* ------------------------------------------------------------------ *)

Record VolumeMount := mkVolumeMount {
  source : string;
  dest : string;
  read_only : bool
}.

(** The host operations of the container process, in the order issued. *)
Inductive ChildOp :=
| CgroupNew | CgroupSetup | CgroupAddProcess
| SourceCreate (src : string) | SourceIsDir (src : string)
| DestCreate (path : string)
| BindMount (src path : string)
| RemountReadOnly (path : string)
| Unshare
| ReadSync | CloseSync
| EnterPidNamespace
| SetHostname (hostname : string)
| SetupContainerFilesystem
| ExecuteCommand
| Unmount (path : string).

Definition is_volume_mount (o : ChildOp) : bool :=
  match o with BindMount _ _ | RemountReadOnly _ => true | _ => false end.

(** A computation of the container process: it appends the operations it
    issues to the trace. *)
Definition TM (A : Type) := list ChildOp -> res A * list ChildOp.

Definition tret {A} (a : A) : TM A := fun tr => (Ok a, tr).
Definition tbind {A B} (m : TM A) (k : A -> TM B) : TM B :=
  fun tr =>
    match m tr with
    | (Ok a, tr') => k a tr'
    | (Err e, tr') => (Err e, tr')
    | (Panic p, tr') => (Panic p, tr')
    end.

Notation "'let?' x := m 'in' k" := (tbind m (fun x => k))
  (at level 200, x name, m at level 100, k at level 200).

(** [let _ = f();] and [if let Err(e) = f() { log }]. *)
Definition tignore {A} (m : TM A) : TM unit :=
  fun tr => match m tr with
            | (Panic p, tr') => (Panic p, tr')
            | (_, tr') => (Ok tt, tr')
            end.

(** [Path::join(rootfs, dest.strip_prefix("/"))] *)
Definition strip_root (p : string) : string :=
  match p with String "/" rest => rest | _ => p end.
Definition path_join (a b : string) : string := (a ++ "/" ++ b)%string.

Section Child.
(** What the host answers to each operation, and which paths exist. *)
Variable op_res : ChildOp -> res unit.
Variable path_exists : string -> bool.

Definition op (o : ChildOp) : TM unit := fun tr => (op_res o, tr ++ [o]).

(** [VolumeManager::setup_volume] *)
Definition setup_volume (m : VolumeMount) : TM unit :=
  let? _ := (if negb (path_exists (source m)) then op (SourceCreate (source m)) else tret tt) in
  op (SourceIsDir (source m)).

(** [ImplVolume::mount_volume] *)
Definition mount_volume (rootfs : string) (v : VolumeMount) : TM unit :=
  let container_dest := path_join rootfs (strip_root (dest v)) in
  let? _ := (if negb (path_exists container_dest) then op (DestCreate container_dest)
             else tret tt) in
  let? _ := op (BindMount (source v) container_dest) in
  if read_only v then op (RemountReadOnly container_dest) else tret tt.

(** [for x in xs { f(x)?; } Ok(())] *)
Fixpoint tfor {X} (f : X -> TM unit) (xs : list X) : TM unit :=
  match xs with
  | [] => tret tt
  | x :: xs' => let? _ := f x in tfor f xs'
  end.

(** [ImplVolume::setup_fs] *)
Definition setup_fs (rootfs : string) (vs : list VolumeMount) : TM unit :=
  tfor (mount_volume rootfs) vs.

(** [collect::<ContainerResult<Vec<_>>>()] over the parsed volumes. *)
Fixpoint collect_res {A} (rs : list (res A)) : res (list A) :=
  match rs with
  | [] => Ok []
  | Ok a :: rs' => match collect_res rs' with Ok l => Ok (a :: l) | e => e end
  | Err e :: _ => Err e
  | Panic p :: _ => Panic p
  end.

Definition tlift {A} (r : res A) : TM A := fun tr => (r, tr).

(** [ImplVolume::setup_volumes]: the result of [setup_fs] is dropped. *)
Definition setup_volumes (parsed : list (res VolumeMount)) (rootfs : string)
    : TM (list VolumeMount) :=
  let? vms := tlift (collect_res parsed) in
  let? _ := tfor setup_volume vms in
  let? _ := tignore (setup_fs rootfs vms) in
  tret vms.

(** [ImplVolume::cleanup_volume]: unmount errors are logged. *)
Definition cleanup_volume (rootfs : string) (vs : list VolumeMount) : TM unit :=
  tfor (fun v => tignore (op (Unmount (path_join rootfs (strip_root (dest v)))))) (rev vs).

(** The container configuration as [run_container_with_sync] reads it:
    whether a resource limit is given, the volume arguments as
    [VolumeMount::parse] returns them, the rootfs and the hostname. *)
Record ChildConfig := mkChildConfig {
  has_limits : bool;
  parsed_volumes : list (res VolumeMount);
  rootfs : string;
  hostname : option string
}.

(** [run_container_with_sync] *)
Definition run_container_with_sync (c : ChildConfig) : TM unit :=
  let? _ := (if has_limits c then
               let? _ := op CgroupNew in let? _ := op CgroupSetup in op CgroupAddProcess
             else tret tt) in
  let? volume_manager := (match parsed_volumes c with
                          | [] => tret Datatypes.None
                          | _ => let? v := setup_volumes (parsed_volumes c) (rootfs c) in
                                 tret (Some v)
                          end) in
  let? _ := op Unshare in
  let? _ := tignore (op ReadSync) in
  let? _ := tignore (op CloseSync) in
  let? _ := op EnterPidNamespace in
  let? _ := op (SetHostname (match hostname c with
                             | Some h => h | Datatypes.None => "rust-container" end)) in
  let? _ := op SetupContainerFilesystem in
  let? _ := op ExecuteCommand in
  let? _ := (match volume_manager with
             | Some vs => tignore (cleanup_volume (rootfs c) vs)
             | Datatypes.None => tret tt
             end) in
  tret tt.

(** [run_container]: the same steps without the wait on the parent. *)
Definition run_container (c : ChildConfig) : TM unit :=
  let? _ := (if has_limits c then
               let? _ := op CgroupNew in let? _ := op CgroupSetup in op CgroupAddProcess
             else tret tt) in
  let? volume_manager := (match parsed_volumes c with
                          | [] => tret Datatypes.None
                          | _ => let? v := setup_volumes (parsed_volumes c) (rootfs c) in
                                 tret (Some v)
                          end) in
  let? _ := op Unshare in
  let? _ := op EnterPidNamespace in
  let? _ := op (SetHostname (match hostname c with
                             | Some h => h | Datatypes.None => "rust-container" end)) in
  let? _ := op SetupContainerFilesystem in
  let? _ := op ExecuteCommand in
  let? _ := (match volume_manager with
             | Some vs => tignore (cleanup_volume (rootfs c) vs)
             | Datatypes.None => tret tt
             end) in
  tret tt.

End Child.

(** The forked child's exit: [std::process::exit(1)] on an error,
    [exit(0)] otherwise; a panic ends the process with 101. *)
Definition child_exit_code (r : res unit) : Z :=
  match r with Ok _ => 0 | Err _ => 1 | Panic _ => 101 end.

(** [main]: [exit(1)] when [run()] returns an error, 0 when it returns. *)
Definition main_exit_code (r : res unit) : Z :=
  match r with Ok _ => 0 | Err _ => 1 | Panic _ => 101 end.

(** The parent side of [run] with an isolated network: the network setup's
    result, the answer of [waitpid(child, None)] and the result of
    [cleanup_container_network]. *)
Definition run_parent (net_setup : res unit) (waited : WaitResult) (cleanup : res unit)
    : res unit :=
  match net_setup with
  | Err e => Err e
  | Panic p => Panic p
  | Ok _ =>
      match waited with
      | WaitOk _ => Ok tt
      | WaitEintr => Err (ProcessExecution "Wait failed: EINTR")
      | WaitErr e => Err (ProcessExecution ("Wait failed: " ++ e)%string)
      end
  end.

(** The host answers of a run in which the payload, run without a PTY, is
    waited for with [answers]: every other operation succeeds. *)
Definition payload_op_res (answers : list WaitResult) (o : ChildOp) : res unit :=
  match o with
  | ExecuteCommand =>
      match execute_without_pty answers with Some r => r | Datatypes.None => Ok tt end
  | _ => Ok tt
  end.

(** The exit code of [corerun] in the isolated-network path: the child
    runs [run_container_with_sync]; the parent waits for it and returns. *)
Definition isolated_exit_code (answers : list WaitResult) (c : ChildConfig)
    (cleanup : res unit) : Z :=
  let child := child_exit_code
                 (fst (run_container_with_sync (payload_op_res answers) (fun _ => true) c [])) in
  main_exit_code (run_parent (Ok tt) (WaitOk (Exited child)) cleanup).

(** The exit code of [corerun] in the host-network path, where [run]
    returns [run_container]'s result. *)
Definition direct_exit_code (answers : list WaitResult) (c : ChildConfig) : Z :=
  main_exit_code (fst (run_container (payload_op_res answers) (fun _ => true) c [])).

(* ------------------------------------------------------------------ *)
(** ** Concrete hosts                                                   *)
(* ------------------------------------------------------------------ *)

(** A host where every command and write succeeds and no address answers
    a ping; process [pid]'s namespace is named [pid]. *)
Definition env_ok : Env := mkEnv
  (fun argv => match argv with
               | "ping" :: _ => Some (mkOutput false "" "")
               | _ => Some (mkOutput true "" "")
               end)
  (fun _ => true) true (fun p => Some p) (fun _ => true).

(** As [env_ok], but [ip link delete] is refused by the kernel. *)
Definition env_delete_eperm : Env := mkEnv
  (fun argv => match argv with
               | "ping" :: _ => Some (mkOutput false "" "")
               | "ip" :: "link" :: "delete" :: _ =>
                   Some (mkOutput false "" "RTNETLINK answers: Operation not permitted")
               | _ => Some (mkOutput true "" "")
               end)
  (fun _ => true) true (fun p => Some p) (fun _ => true).

Definition st_empty : St := mkSt 0 [] [] ∅ ∅.

(** A container id of the shape [container-<pid>-<unix-seconds>]. *)
Definition sample_id : string := "container-4242-1700000000".

(** The manager right after [NetworkManager::new] on [env_ok]; then with
    [sample_id] attached to the default network; [peer_id] is a second
    container. *)
Definition st_new : St := snd (NetworkManager_new env_ok st_empty).
Definition st_bridged : St :=
  snd (setup_container_network env_ok sample_id 4242 (NetworkMode.Bridge "bridge") [] st_new).
Definition peer_id : string := "container-4243-1700000001".

(** A container configuration with one read-write volume [/data:/data]. *)
Definition sample_config : ChildConfig :=
  mkChildConfig false [Ok (mkVolumeMount "/data" "/data" false)] "/var/lib/corerun/rootfs"
    Datatypes.None.

(** The state [enter] hands to its block: after the [setns] into [t]. *)
Definition entered (st : St) (t : Z) : St := set_net_ns t (push_setns t st).

(** The shape of the container map that the manager's sources aim at:
    a [Bridge] entry holds an address kept in its network's allocator, a
    [Host] or [None] entry holds no address; a [Container] entry holds the
    address it copied from its peer. *)
Definition entries_consistent (st : St) : Prop :=
  forall id cn, container_networks st !! id = Some cn ->
  match mode cn with
  | NetworkMode.Bridge n =>
      exists ip net, ip_address cn = Some ip /\ networks st !! n = Some net /\
                     ip ∈ allocated (nc_allocator net)
  | NetworkMode.Host | NetworkMode.None => ip_address cn = Datatypes.None
  | NetworkMode.Container _ => True
  end.

(** Two [Bridge] entries of one network never hold the same address. *)
Definition bridge_ips_distinct (st : St) : Prop :=
  forall id1 id2 cn1 cn2 n ip,
    container_networks st !! id1 = Some cn1 -> container_networks st !! id2 = Some cn2 ->
    mode cn1 = NetworkMode.Bridge n -> mode cn2 = NetworkMode.Bridge n ->
    ip_address cn1 = Some ip -> ip_address cn2 = Some ip -> id1 = id2.

Definition mgr_inv (st : St) : Prop := entries_consistent st /\ bridge_ips_distinct st.

(** The manager states a run can reach: a successful [NetworkManager::new],
    then any sequence of setups and cleanups, whatever their outcome, each
    against whatever the host answers at that moment. *)
Inductive reachable : St -> Prop :=
| reach_new env st0 st :
    NetworkManager_new env st0 = (Ok tt, st) -> reachable st
| reach_setup env st container_id pid m ports r st' :
    reachable st -> setup_container_network env container_id pid m ports st = (r, st') ->
    reachable st'
| reach_cleanup env st container_id r st' :
    reachable st -> cleanup_container_network env container_id st = (r, st') ->
    reachable st'.

(** The lookup that [setup_container_network] unwraps for a mode: the
    named network for [Bridge], the peer's entry for [Container]. *)
Definition target_missing (st : St) (m : NetworkMode.t) : Prop :=
  match m with
  | NetworkMode.Bridge n => networks st !! n = Datatypes.None
  | NetworkMode.Container peer => container_networks st !! peer = Datatypes.None
  | _ => False
  end.

(* ------------------------------------------------------------------ *)
(** ** Network teardown, the [--network] flag and [VolumeMount::parse]  *)
(* ------------------------------------------------------------------ *)

Section Teardown.
Variable env : Env.

(** [Bridge::delete]: a failing [ip link delete] is not an error (the
    error value is built and dropped). *)
Definition bridge_delete (b : Bridge) : M unit :=
  let! _o := output_or env "Failed to delete bridge" ["ip"; "link"; "delete"; bridge_name b] in
  ret tt.

(** [iptables::cleanup_nat]: both outcomes are dropped. *)
Definition cleanup_nat (bridge : string) : M unit :=
  let! _ := ignore (run_cmd env ["iptables"; "-D"; "FORWARD"; "-i"; bridge; "-j"; "ACCEPT"]) in
  let! _ := ignore (run_cmd env ["iptables"; "-D"; "FORWARD"; "-o"; bridge; "-j"; "ACCEPT"]) in
  ret tt.

(** [NetworkManager::_delete_network].  For ["bridge"] the error value is
    built and dropped: the deletion goes on. *)
Definition _delete_network (name : string) : M unit :=
  let! nets := gets networks in
  match nets !! name with
  | Some network =>
      let! _ := modify (set_networks (delete name nets)) in
      let! _ := bridge_delete (nc_bridge network) in
      let! _ := cleanup_nat (bridge_name (nc_bridge network)) in
      ret tt
  | Datatypes.None => ret tt
  end.
End Teardown.

(** The network mode [parse_args] derives from the [--network] value. *)
Definition network_mode_of (network_str : string) : NetworkMode.t :=
  if String.prefix "container:" network_str then
    NetworkMode.Container (String.substring 10 (String.length network_str - 10) network_str)
  else if String.eqb network_str "bridge" then NetworkMode.Bridge "bridge"
  else if String.eqb network_str "host" then NetworkMode.Host
  else if String.eqb network_str "none" then NetworkMode.None
  else NetworkMode.Bridge "bridge".

(** [Path::is_absolute] on Unix: the path starts at the root. *)
Definition path_is_absolute (p : string) : bool :=
  match p with String "/" _ => true | _ => false end.

(** [VolumeMount::parse]; [anon] is what [create_anonymous_volume] returns. *)
Definition VolumeMount_parse (anon : res string) (volume_str : string) : res VolumeMount :=
  match split_on ":"%char volume_str with
  | [p0] =>
      if negb (path_is_absolute p0) then
        Err (Volume ("Container path must be absolute: " ++ p0))
      else match anon with
           | Ok s => Ok (mkVolumeMount s p0 false)
           | Err e => Err e
           | Panic p => Panic p
           end
  | [p0; p1] =>
      if negb (path_is_absolute p1) then
        Err (Volume ("Container path must be absolute: " ++ p1))
      else Ok (mkVolumeMount p0 p1 false)
  | [p0; p1; p2] =>
      let mode := if String.eqb p2 "ro" then Ok true
                  else if String.eqb p2 "rw" then Ok false
                  else Err (InvalidConfiguration ("Invalid mount mode: " ++ p2)) in
      match mode with
      | Ok ro =>
          if negb (path_is_absolute p1) then
            Err (Volume ("Container path must be absolute: " ++ p2))
          else Ok (mkVolumeMount p0 p1 ro)
      | Err e => Err e
      | Panic p => Panic p
      end
  | _ => Err (InvalidConfiguration "Invalid mount format")
  end.

(** A path with no [:] in it. *)
Definition no_colon (s : string) : Prop :=
  Forall (fun x => x <> ":"%char) (list_ascii_of_string s).

(** A decimal digit, as [digit_value] reads it. *)
Definition is_digit (c : Ascii.ascii) : Prop := digit_value c <> Datatypes.None.

(** The [iptables] command that undoes [argv]: an [-I chain 1] insertion
    becomes the [-D chain] deletion of the same rule. *)
Fixpoint delete_form (argv : list string) : list string :=
  match argv with
  | "-I" :: chain :: "1" :: rest => "-D" :: chain :: rest
  | a :: rest => a :: delete_form rest
  | [] => []
  end.

(** As [env_ok], but no [setns] call succeeds. *)
Definition env_no_setns : Env :=
  mkEnv (cmd_output env_ok) (fs_write_ok env_ok) true (fun p => Some p) (fun _ => false).

(* ================================================================== *)
(** * Properties                                                        *)
(* ================================================================== *)

(* ------------------------------------------------------------------ *)
(** ** IP allocator                                                     *)
(* ------------------------------------------------------------------ *)

Lemma scan_from_sub ping a n (s : gset Z) : s ⊆ scan_from ping a n s.
Proof.
  revert a s; induction n as [|n IH]; intros a s; simpl; [done|].
  etrans; [|apply IH]. destruct (ping a); set_solver.
Qed.

Lemma first_free_spec (s : gset Z) a n ip :
  first_free s a n = Some ip -> (ip ∉ s) /\ a <= ip.
Proof.
  revert a; induction n as [|n IH]; intros a; simpl; [discriminate|].
  case_decide.
  - intros H1. destruct (IH _ H1). split; [done|lia].
  - intros [= <-]. split; [done|lia].
Qed.

Lemma allocate_frame ping al r al' :
  allocate ping al = (r, al') ->
  subnet al' = subnet al /\ allocated al ⊆ allocated al'.
Proof.
  unfold allocate. pose proof (scan_from_sub ping
    (network_addr (subnet al) + 2)
    (Z.to_nat (Z.min 20 (nw_size (subnet al) - 2))) (allocated al)).
  simpl. destruct first_free; intros [= <- <-]; simpl; split; set_solver.
Qed.

Lemma allocate_ok ping al ip al' :
  allocate ping al = (Ok ip, al') ->
  (ip ∉ allocated al) /\ network_addr (subnet al) + 2 <= ip /\ ip ∈ allocated al'.
Proof.
  unfold allocate. pose proof (scan_from_sub ping
    (network_addr (subnet al) + 2)
    (Z.to_nat (Z.min 20 (nw_size (subnet al) - 2))) (allocated al)).
  simpl. destruct first_free eqn:Hf; [|discriminate].
  apply first_free_spec in Hf as [Hn Hle].
  intros [= <- <-]; simpl. split; [set_solver|split; [lia|set_solver]].
Qed.

Lemma allocate_result ping al r al' :
  allocate ping al = (r, al') ->
  (exists ip, r = Ok ip) \/ (exists e, r = Err e).
Proof.
  unfold allocate. destruct first_free; intros [= <- _]; eauto.
Qed.

Lemma run_alloc_inv ops : forall al (held : gset Z),
  held ⊆ allocated al ->
  no_reuse held (fst (run_alloc al ops)) /\
  (forall ip, In (Allocated (Some ip)) (fst (run_alloc al ops)) ->
     network_addr (subnet al) + 2 <= ip).
Proof.
  induction ops as [|op ops IH]; intros al held Hsub; simpl; [done|].
  destruct op as [ping|ip0].
  - destruct (allocate ping al) as [r al1] eqn:Ha.
    destruct (allocate_frame _ _ _ _ Ha) as [Hsn Hgrow].
    destruct (run_alloc al1 ops) as [evs al2] eqn:Hr. simpl.
    destruct (allocate_result _ _ _ _ Ha) as [[ip ->]|[e ->]].
    + destruct (allocate_ok _ _ _ _ Ha) as (Hn & Hle & Hin).
      destruct (IH al1 ({[ip]} ∪ held)) as [H1 H2]; [set_solver|].
      rewrite Hr in H1, H2; simpl in H1, H2.
      split; [split; [set_solver|done]|].
      intros ip' [Heq|Hin']; [injection Heq as <-; lia|].
      rewrite <- Hsn. by apply H2.
    + destruct (IH al1 held) as [H1 H2]; [set_solver|].
      rewrite Hr in H1, H2; simpl in H1, H2.
      split; [done|]. intros ip' [Heq|Hin']; [discriminate|].
      rewrite <- Hsn. by apply H2.
  - destruct (run_alloc (release ip0 al) ops) as [evs al2] eqn:Hr. simpl.
    destruct (IH (release ip0 al) (held ∖ {[ip0]})) as [H1 H2].
    { unfold release; simpl; set_solver. }
    rewrite Hr in H1, H2; simpl in H1, H2.
    split; [done|]. intros ip' [Heq|Hin']; [discriminate|]. by apply H2.
Qed.

(** C4: over any sequence of [allocate] and [release] calls on one
    allocator, [allocate] never returns an address that an earlier
    [allocate] returned unless a [release] of it came in between, never
    the subnet's network address, never the gateway (host #1,
    [iter().nth(1)]); and [release] of an address that is not held leaves
    the allocator unchanged. *)
Theorem ip_allocator_uniqueness (al0 : IpAllocator) (ops : list AllocOp) :
  no_reuse ∅ (fst (run_alloc al0 ops)) /\
  (forall ip, In (Allocated (Some ip)) (fst (run_alloc al0 ops)) ->
     ip <> network_addr (subnet al0) /\
     forall gw, iter_nth (subnet al0) 1 = Some gw -> ip <> gw) /\
  (forall ip (al : IpAllocator), ip ∉ allocated al -> release ip al = al).
Proof.
  destruct (run_alloc_inv ops al0 ∅) as [H1 H2]; [set_solver|].
  split; [done|split].
  - intros ip Hin. specialize (H2 ip Hin). split; [lia|].
    intros gw. unfold iter_nth. destruct (_ && _); [|discriminate].
    intros [= <-]. lia.
  - intros ip [sn s] Hn. unfold release; simpl. f_equal.
    apply leibniz_equiv. set_solver.
Qed.

(* ------------------------------------------------------------------ *)
(** ** Monad reasoning: steps that leave the manager's maps alone      *)
(* ------------------------------------------------------------------ *)

Definition same_maps (st st' : St) : Prop :=
  networks st' = networks st /\ container_networks st' = container_networks st.

Definition keeps_maps {A} (m : M A) : Prop :=
  forall st r st', m st = (r, st') -> same_maps st st'.

Lemma same_maps_refl st : same_maps st st.
Proof. split; reflexivity. Qed.

Lemma same_maps_trans st1 st2 st3 :
  same_maps st1 st2 -> same_maps st2 st3 -> same_maps st1 st3.
Proof. intros [H1 H2] [H3 H4]. split; congruence. Qed.

Lemma keeps_ret {A} (a : A) : keeps_maps (ret a).
Proof. intros st r st' [= _ <-]. apply same_maps_refl. Qed.
Lemma keeps_fail {A} e : keeps_maps (@fail A e).
Proof. intros st r st' [= _ <-]. apply same_maps_refl. Qed.
Lemma keeps_panic {A} p : keeps_maps (@panic A p).
Proof. intros st r st' [= _ <-]. apply same_maps_refl. Qed.
Lemma keeps_lift {A} (r0 : res A) : keeps_maps (lift r0).
Proof. intros st r st' [= _ <-]. apply same_maps_refl. Qed.
Lemma keeps_gets {A} (f : St -> A) : keeps_maps (gets f).
Proof. intros st r st' [= _ <-]. apply same_maps_refl. Qed.
Lemma keeps_run_cmd env argv : keeps_maps (run_cmd env argv).
Proof. intros st r st' [= _ <-]. split; reflexivity. Qed.
Lemma keeps_setns env ns msg : keeps_maps (setns env ns msg).
Proof.
  intros st r st'. unfold setns. destruct (setns_ok env ns); intros [= _ <-]; split; reflexivity.
Qed.

Lemma keeps_bind {A B} (m : M A) (k : A -> M B) :
  keeps_maps m -> (forall a, keeps_maps (k a)) -> keeps_maps (bind m k).
Proof.
  intros Hm Hk st r st'. unfold bind.
  destruct (m st) as [[a|e|p] st1] eqn:E; intros H.
  - eapply same_maps_trans; [eapply Hm; exact E | eapply Hk; exact H].
  - injection H as _ <-. eapply Hm; exact E.
  - injection H as _ <-. eapply Hm; exact E.
Qed.

Lemma keeps_try {A} (m : M A) : keeps_maps m -> keeps_maps (try_ m).
Proof.
  intros Hm st r st'. unfold try_.
  destruct (m st) as [[a|e|p] st1] eqn:E; intros [= _ <-]; eapply Hm; exact E.
Qed.

Lemma keeps_if {A} (b : bool) (m1 m2 : M A) :
  keeps_maps m1 -> keeps_maps m2 -> keeps_maps (if b then m1 else m2).
Proof. destruct b; auto. Qed.

Lemma keeps_slice s i j : keeps_maps (slice s i j).
Proof. unfold slice. apply keeps_if; [apply keeps_ret | apply keeps_panic]. Qed.

Lemma keeps_enter {A} env pid (blk : M A) : keeps_maps blk -> keeps_maps (enter env pid blk).
Proof.
  intros Hb. unfold enter.
  apply keeps_bind; [destruct (self_ns_open_ok env); [apply keeps_gets|apply keeps_fail]|intros cur].
  apply keeps_bind; [destruct (pid_netns env pid); [apply keeps_ret|apply keeps_fail]|intros tgt].
  apply keeps_bind; [apply keeps_setns|intros _].
  apply keeps_bind; [apply keeps_try, Hb|intros r].
  apply keeps_bind; [apply keeps_setns|intros _]. apply keeps_lift.
Qed.

Lemma keeps_for_each_port f ps :
  (forall p, keeps_maps (f p)) -> keeps_maps (for_each_port f ps).
Proof.
  intros Hf. induction ps as [|p ps IH]; simpl; [apply keeps_ret|].
  apply keeps_bind; auto.
Qed.

Create HintDb keeps.
Hint Resolve keeps_ret keeps_fail keeps_panic keeps_lift keeps_gets keeps_run_cmd
  keeps_setns keeps_try keeps_slice : keeps.

Ltac keeps :=
  repeat match goal with
  | |- keeps_maps (bind _ _) => apply keeps_bind; [|intro]
  | |- keeps_maps (if _ then _ else _) => apply keeps_if
  | |- keeps_maps (match ?x with _ => _ end) => destruct x
  | |- keeps_maps (ignore _) => unfold ignore
  | |- keeps_maps _ => solve [eauto with keeps]
  | |- keeps_maps (enter _ _ _) => apply keeps_enter
  | |- keeps_maps (try_ _) => apply keeps_try
  | |- keeps_maps (for_each_port _ _) => apply keeps_for_each_port; intro
  | |- keeps_maps (?f _) => unfold f
  | |- keeps_maps (?f _ _) => unfold f
  | |- keeps_maps (?f _ _ _) => unfold f
  | |- keeps_maps (?f _ _ _ _) => unfold f
  | |- keeps_maps (?f _ _ _ _ _) => unfold f
  | |- keeps_maps (?f _ _ _ _ _ _) => unfold f
  end.

Lemma keeps_output_or env msg argv : keeps_maps (output_or env msg argv).
Proof. keeps. Qed.
Lemma keeps_output_io env argv : keeps_maps (output_io env argv).
Proof. keeps. Qed.
Hint Resolve keeps_output_or keeps_output_io : keeps.


Lemma keeps_bridge_create env b : keeps_maps (bridge_create env b).
Proof. keeps. Qed.
Lemma keeps_bridge_set_ip env b ip p : keeps_maps (bridge_set_ip env b ip p).
Proof. keeps. Qed.
Lemma keeps_bridge_up env b : keeps_maps (bridge_up env b).
Proof. keeps. Qed.
Lemma keeps_attach_interface env b i : keeps_maps (attach_interface env b i).
Proof. keeps. Qed.
Lemma keeps_create_veth_pair env vh vc : keeps_maps (create_veth_pair env vh vc).
Proof. keeps. Qed.
Lemma keeps_move_to_namespace env i pid : keeps_maps (move_to_namespace env i pid).
Proof. keeps. Qed.
Lemma keeps_setup_loopback env pid : keeps_maps (setup_loopback env pid).
Proof. keeps. Qed.
Lemma keeps_rename_to_eth0 env vc : keeps_maps (rename_to_eth0 env vc).
Proof. keeps. Qed.
Lemma keeps_configure_interface env pid i ip p : keeps_maps (configure_interface env pid i ip p).
Proof. keeps. Qed.
Lemma keeps_add_default_route env pid i gw : keeps_maps (add_default_route env pid i gw).
Proof. keeps. Qed.
Lemma keeps_enable_localhost_routing env b : keeps_maps (enable_localhost_routing env b).
Proof. keeps. Qed.
Lemma keeps_setup_nat env b s : keeps_maps (setup_nat env b s).
Proof. keeps. Qed.
Lemma keeps_add_port_forward env hp ip cp p : keeps_maps (add_port_forward env hp ip cp p).
Proof. keeps. Qed.
Lemma keeps_remove_port_forward env hp ip cp p : keeps_maps (remove_port_forward env hp ip cp p).
Proof. keeps. Qed.
Lemma keeps_delete_veth env i : keeps_maps (delete_veth env i).
Proof. keeps. Qed.
Hint Resolve keeps_bridge_create keeps_bridge_set_ip keeps_bridge_up keeps_attach_interface keeps_create_veth_pair keeps_move_to_namespace keeps_setup_loopback keeps_rename_to_eth0 keeps_configure_interface keeps_add_default_route keeps_enable_localhost_routing keeps_setup_nat keeps_add_port_forward keeps_remove_port_forward keeps_delete_veth : keeps.

(** Running a step that keeps the maps, then the rest. *)
Lemma bind_keeps_inv {A B} (m : M A) (k : A -> M B) st r st'' :
  keeps_maps m -> bind m k st = (r, st'') ->
  (same_maps st st'' /\ forall b, r <> Ok b) \/
  exists a st1, m st = (Ok a, st1) /\ same_maps st st1 /\ k a st1 = (r, st'').
Proof.
  intros Hm. unfold bind. destruct (m st) as [[a|e|p] st1] eqn:E; intros H.
  - right. exists a, st1. split; [done|]. split; [eapply Hm; exact E|exact H].
  - left. injection H as <- <-. split; [eapply Hm; exact E|discriminate].
  - left. injection H as <- <-. split; [eapply Hm; exact E|discriminate].
Qed.

Lemma bind_ok_inv {A B} (m : M A) (k : A -> M B) st b st'' :
  bind m k st = (Ok b, st'') ->
  exists a st1, m st = (Ok a, st1) /\ k a st1 = (Ok b, st'').
Proof.
  unfold bind. destruct (m st) as [[a|e|p] st1]; intros H; try discriminate. eauto.
Qed.

Lemma bind_ok_keeps {A B} (m : M A) (k : A -> M B) st b st'' :
  keeps_maps m -> bind m k st = (Ok b, st'') ->
  exists a st1, m st = (Ok a, st1) /\ same_maps st st1 /\ k a st1 = (Ok b, st'').
Proof.
  intros Hm H. apply bind_ok_inv in H as (a & st1 & H1 & H2).
  exists a, st1. split; [done|split; [eapply Hm; exact H1|done]].
Qed.

Ltac ok_keep H :=
  let a := fresh "a" in let st := fresh "st" in
  let Hm := fresh "Hm" in let Hs := fresh "Hs" in
  eapply bind_ok_keeps in H; [|solve [keeps]]; destruct H as (a & st & Hm & Hs & H);
  try (progress cbv [ret gets lift] in Hm; injection Hm as ? ?; subst a st).

Lemma create_network_ok env name s st st' :
  create_network env name s st = (Ok tt, st') ->
  exists subnet gw bnm,
    parse_cidr s = Some subnet /\ iter_nth subnet 1 = Some gw /\
    (name = "bridge" -> bnm = "corerun0") /\
    networks st' = <[name := mkNetworkConfig name (mkBridge bnm) subnet gw
                               (mkIpAllocator subnet ∅)]> (networks st) /\
    container_networks st' = container_networks st.
Proof.
  unfold create_network. intros H.
  destruct (parse_cidr s) as [subnet|] eqn:Hp; [|cbv [bind fail] in H; congruence].
  ok_keep H.
  destruct (String.eqb name "bridge") eqn:Hb; ok_keep H; ok_keep H;
  match type of H with context [iter_nth ?x 1] =>
    destruct (iter_nth x 1) as [gw|] eqn:Hg; [|cbv [bind panic] in H; congruence]
  end;
  do 5 ok_keep H;
  cbv [ret bind gets modify] in H; simplify_eq;
  repeat match goal with Hs : same_maps _ _ |- _ => destruct Hs end;
  simpl;
  repeat match goal with
         | E : networks ?a = networks ?b |- context [networks ?a] =>
             assert_fails (unify a b); rewrite E
         | E : container_networks ?a = container_networks ?b |- context [container_networks ?a] =>
             assert_fails (unify a b); rewrite E
         end;
  (eexists _, _, _; split; [done|split; [done|split; [|split; reflexivity]]]).
  - reflexivity.
  - intros ->. discriminate Hb.
Qed.

(* ------------------------------------------------------------------ *)
(** ** Default network                                                  *)
(* ------------------------------------------------------------------ *)

(** C3 (as the code has it): when [NetworkManager::new] succeeds, the
    networks map holds exactly the default entry: name ["bridge"], bridge
    device [corerun0], subnet [172.17.0.0/16], gateway [172.17.0.1] (the
    subnet's host #1, [iter().nth(1)]), an empty allocator over that
    subnet; and no container entry. *)
Theorem network_manager_default_entry env st st' :
  NetworkManager_new env st = (Ok tt, st') ->
  exists nc,
    networks st' = {["bridge" := nc]} /\
    nc_name nc = "bridge" /\
    bridge_name (nc_bridge nc) = "corerun0" /\
    network_to_string (nc_subnet nc) = "172.17.0.0/16" /\
    iter_nth (nc_subnet nc) 1 = Some (nc_gateway nc) /\
    ipv4_to_string (nc_gateway nc) = "172.17.0.1" /\
    nc_allocator nc = mkIpAllocator (nc_subnet nc) ∅ /\
    container_networks st' = ∅.
Proof.
  unfold NetworkManager_new. intros H.
  apply bind_ok_inv in H as (u & st1 & H1 & H).
  cbv [modify] in H1. injection H1 as _ <-.
  apply create_network_ok in H as (subnet & gw & bnm & Hp & Hg & Hb & Hn & Hc).
  assert (parse_cidr "172.17.0.0/16" = Some (mkIpv4Network 2886795264 16)) as E
    by reflexivity.
  rewrite E in Hp. injection Hp as <-.
  assert (iter_nth (mkIpv4Network 2886795264 16) 1 = Some 2886795265) as E2
    by reflexivity.
  rewrite E2 in Hg. injection Hg as <-.
  rewrite (Hb eq_refl) in Hn. simpl in Hn, Hc.
  eexists. split; [rewrite Hn; reflexivity|].
  repeat split; try reflexivity. exact Hc.
Qed.

Lemma network_manager_default_entry_witness :
  exists st', NetworkManager_new env_ok st_empty = (Ok tt, st') /\
  exists nc,
    networks st' = {["bridge" := nc]} /\
    nc_name nc = "bridge" /\
    bridge_name (nc_bridge nc) = "corerun0" /\
    network_to_string (nc_subnet nc) = "172.17.0.0/16" /\
    iter_nth (nc_subnet nc) 1 = Some (nc_gateway nc) /\
    ipv4_to_string (nc_gateway nc) = "172.17.0.1" /\
    nc_allocator nc = mkIpAllocator (nc_subnet nc) ∅ /\
    container_networks st' = ∅.
Proof.
  eexists. split.
  - vm_compute. reflexivity.
  - apply (network_manager_default_entry env_ok st_empty). vm_compute. reflexivity.
Defined.

(** C3 as stated fails: the default entry's subnet is not
    [172.18.0.0/16] and its gateway is not [172.18.0.1]. *)
Lemma default_network_not_172_18 :
  exists nc,
    networks (snd (NetworkManager_new env_ok st_empty)) !! "bridge" = Some nc /\
    network_to_string (nc_subnet nc) <> "172.18.0.0/16" /\
    ipv4_to_string (nc_gateway nc) <> "172.18.0.1".
Proof.
  eexists. split; [vm_compute; reflexivity|].
  split; vm_compute; discriminate.
Qed.

(* ------------------------------------------------------------------ *)
(** ** Port mapping parser                                              *)
(* ------------------------------------------------------------------ *)

(** C5: the protocol suffix [/udp] is rejected with an error, while the
    misspelt [/upd] is the one mapped to UDP; [/tcp] parses. *)
Theorem port_mapping_udp_rejected :
  PortMapping_parse "53:53/udp" = Err (Network "Invalid protocol: udp") /\
  PortMapping_parse "53:53/upd" = Ok (mkPortMapping 53 53 Protocol.UDP) /\
  PortMapping_parse "8080:80/tcp" = Ok (mkPortMapping 8080 80 Protocol.TCP).
Proof. vm_compute. repeat split. Qed.

(* ------------------------------------------------------------------ *)
(** ** [delete_veth]                                                    *)
(* ------------------------------------------------------------------ *)

(** C8: once [ip link delete] could be spawned, [delete_veth] returns [Ok]
    whatever the exit status and the error output. *)
Theorem delete_veth_always_ok env interface st out :
  cmd_output env ["ip"; "link"; "delete"; interface] = Some out ->
  fst (delete_veth env interface st) = Ok tt.
Proof.
  intros Hout. unfold delete_veth, output_or, run_cmd, bind. rewrite Hout.
  cbv [ret]. destruct (status_success out), (contains (stderr out) "Cannot find device");
  reflexivity.
Qed.

Lemma delete_veth_always_ok_witness :
  cmd_output env_delete_eperm ["ip"; "link"; "delete"; "veth4242-17"] =
    Some (mkOutput false "" "RTNETLINK answers: Operation not permitted") /\
  fst (delete_veth env_delete_eperm "veth4242-17" st_empty) = Ok tt.
Proof.
  split; [reflexivity|].
  apply (delete_veth_always_ok env_delete_eperm "veth4242-17" st_empty
           (mkOutput false "" "RTNETLINK answers: Operation not permitted")).
  reflexivity.
Defined.

(* ------------------------------------------------------------------ *)
(** ** [NetworkNamespace::enter]                                        *)
(* ------------------------------------------------------------------ *)

(** C9: when both namespace handles open and the [setns] into the target
    succeeds, and the block does not panic, [enter] issues a last [setns]
    back to the namespace it was called in, whatever the block returned;
    when that restore succeeds, the caller is back in its namespace and
    [enter] returns exactly the block's result. *)
Theorem enter_restores_namespace {A} env pid (block : M A) st t :
  self_ns_open_ok env = true ->
  pid_netns env pid = Some t ->
  setns_ok env t = true ->
  (forall p, fst (block (entered st t)) <> Panic p) ->
  let '(r, st') := enter env pid block st in
  let '(rb, stb) := block (entered st t) in
  setns_log st' = net_ns st :: setns_log stb /\
  (setns_ok env (net_ns st) = true -> net_ns st' = net_ns st /\ r = rb).
Proof.
  intros Ho Hp Ht Hnp.
  unfold enter, bind. rewrite Ho, Hp. cbv [gets ret].
  unfold setns at 1. rewrite Ht. unfold try_.
  unfold entered in *.
  match goal with |- context [block ?x] => destruct (block x) as [rb stb] eqn:Eb end.
  destruct rb as [a|e|p]; [| |exfalso; apply (Hnp p); reflexivity];
  unfold setns; destruct (setns_ok env (net_ns st)) eqn:Er; cbv [lift];
  simpl; (split; [reflexivity|]); intros; try congruence; split; reflexivity.
Qed.

Lemma enter_restores_namespace_witness :
  self_ns_open_ok env_ok = true /\
  pid_netns env_ok 4242 = Some 4242 /\
  setns_ok env_ok 4242 = true /\
  (forall p, fst (fail (A:=unit) (Network "boom") (entered (set_net_ns 1 st_empty) 4242))
             <> Panic p) /\
  let '(r, st') := enter env_ok 4242 (fail (A:=unit) (Network "boom")) (set_net_ns 1 st_empty) in
  let '(rb, stb) := fail (A:=unit) (Network "boom") (entered (set_net_ns 1 st_empty) 4242) in
  setns_log st' = net_ns (set_net_ns 1 st_empty) :: setns_log stb /\
  (setns_ok env_ok (net_ns (set_net_ns 1 st_empty)) = true ->
   net_ns st' = net_ns (set_net_ns 1 st_empty) /\ r = rb).
Proof.
  split; [reflexivity|]. split; [reflexivity|]. split; [reflexivity|].
  split; [intros p; cbv; discriminate|].
  apply (enter_restores_namespace env_ok 4242 (fail (Network "boom"))
           (set_net_ns 1 st_empty) 4242); try reflexivity.
  intros p; cbv; discriminate.
Defined.

(* ------------------------------------------------------------------ *)
(** ** Unknown network or peer                                          *)
(* ------------------------------------------------------------------ *)

(** C10: [setup_container_network] in [Bridge] mode naming a network not
    in the map, or in [Container] mode naming a peer not in the container
    map, panics with the [unwrap] of [None]; it does not return an error
    value. *)
Theorem setup_unknown_target_panics env container_id pid m ports st :
  target_missing st m ->
  fst (setup_container_network env container_id pid m ports st) = Panic unwrap_panic.
Proof.
  destruct m as [n| | |peer]; simpl; intros H; try contradiction.
  - unfold setup_bridge_network, bind, gets. rewrite H. reflexivity.
  - unfold setup_container_network_shared, bind, gets. rewrite H. reflexivity.
Qed.

Lemma setup_unknown_target_panics_witness :
  target_missing st_empty (NetworkMode.Container "container-9999-1700000000") /\
  fst (setup_container_network env_ok sample_id 4242
         (NetworkMode.Container "container-9999-1700000000") [] st_empty)
    = Panic unwrap_panic.
Proof.
  split; [reflexivity|].
  apply (setup_unknown_target_panics env_ok sample_id 4242
           (NetworkMode.Container "container-9999-1700000000") [] st_empty).
  reflexivity.
Defined.

(* ------------------------------------------------------------------ *)
(** ** Hairpin rule                                                     *)
(* ------------------------------------------------------------------ *)

(** C6: on a run where the default network comes up, a container is
    attached to it and then cleaned up, the hairpin rule added names the
    destination [172.17.0.0/16] while the rule deleted names
    [127.17.0.0/16]: the delete is not the inverse of the add. *)
Theorem hairpin_delete_mismatch :
  let st1 := snd (NetworkManager_new env_ok st_empty) in
  let st2 := snd (setup_container_network env_ok sample_id 4242
                    (NetworkMode.Bridge "bridge") [] st1) in
  let st3 := snd (cleanup_container_network env_ok sample_id st2) in
  In (hairpin_add_args "172.17.0.0/16") (cmd_log st3) /\
  In hairpin_delete_args (cmd_log st3) /\
  nth 8 hairpin_delete_args "" = "127.17.0.0/16" /\
  nth 8 (hairpin_add_args "172.17.0.0/16") "" <> nth 8 hairpin_delete_args "".
Proof.
  vm_compute. split; [|split; [|split; [reflexivity|discriminate]]].
  - repeat (first [left; reflexivity | right]).
  - repeat (first [left; reflexivity | right]).
Qed.

(* ------------------------------------------------------------------ *)
(** ** The container map                                                *)
(* ------------------------------------------------------------------ *)

Lemma mgr_inv_same st st' : same_maps st st' -> mgr_inv st -> mgr_inv st'.
Proof.
  intros [Hn Hc] [He Hd]. split.
  - intros id cn. rewrite Hc, Hn. apply He.
  - intros id1 id2 cn1 cn2 n ip. rewrite Hc. apply Hd.
Qed.

Lemma bind_modify {A} (f : St -> St) (k : unit -> M A) st :
  bind (modify f) k st = k tt (f st).
Proof. reflexivity. Qed.

Ltac adv H :=
  eapply bind_keeps_inv in H; [|solve [keeps]];
  let Hs := fresh "Hs" in let Hm := fresh "Hm" in
  let a := fresh "a" in let s := fresh "s" in
  destruct H as [[Hs _]|(a & s & Hm & Hs & H)];
  [ match goal with Hc : same_maps ?s0 _, Hi : mgr_inv ?s0 |- _ =>
      exact (mgr_inv_same _ _ (same_maps_trans _ _ _ Hc Hs) Hi) end
  | match goal with Hc : same_maps ?s0 _ |- _ =>
      let Hc' := fresh "Hc" in
      pose proof (same_maps_trans _ _ _ Hc Hs) as Hc'; clear Hc Hs
    end;
    cbv beta in H;
    try (progress cbv [panic fail lift] in Hm; congruence);
    try (progress cbv [ret gets lift] in Hm; injection Hm as ? ?; subst a s) ].

Lemma mgr_inv_alloc_write st n net ping ra al' :
  mgr_inv st -> networks st !! n = Some net ->
  allocate ping (nc_allocator net) = (ra, al') ->
  mgr_inv (set_networks (<[n := with_allocator net al']> (networks st)) st).
Proof.
  intros [He Hd] Hn Ha. apply allocate_frame in Ha as [_ Hsub]. split; [|exact Hd].
  intros id cn Hl. specialize (He id cn Hl). simpl.
  destruct (mode cn) as [m| | |]; try exact He.
  destruct He as (ip & net' & Hip & Hn' & Hin).
  destruct (decide (m = n)) as [->|Hne].
  - rewrite Hn in Hn'. injection Hn' as <-.
    exists ip, (with_allocator net al'). rewrite lookup_insert_eq.
    repeat split; [exact Hip|]. simpl. set_solver.
  - exists ip, net'. rewrite lookup_insert_ne by congruence. auto.
Qed.

Lemma mgr_inv_insert_bridge st id n ip net cn :
  mgr_inv st -> mode cn = NetworkMode.Bridge n -> ip_address cn = Some ip ->
  networks st !! n = Some net -> ip ∈ allocated (nc_allocator net) ->
  (forall id' cn', container_networks st !! id' = Some cn' ->
     mode cn' = NetworkMode.Bridge n -> ip_address cn' <> Some ip) ->
  mgr_inv (set_container_networks (<[id := cn]> (container_networks st)) st).
Proof.
  intros [He Hd] Hm Hip Hn Hin Hfr. split.
  - intros id' cn'. simpl. destruct (decide (id' = id)) as [->|Hne].
    + rewrite lookup_insert_eq. intros [= <-]. rewrite Hm. eauto.
    + rewrite lookup_insert_ne by congruence. apply He.
  - intros id1 id2 cn1 cn2 n' ip'. simpl.
    destruct (decide (id1 = id)) as [->|Hne1], (decide (id2 = id)) as [->|Hne2];
      repeat first [rewrite lookup_insert_eq | rewrite lookup_insert_ne by congruence];
      try done.
    + intros [= <-] H2 Hm1 Hm2 Hi1 Hi2. rewrite Hm in Hm1. injection Hm1 as <-.
      rewrite Hip in Hi1. injection Hi1 as <-. exfalso. eapply Hfr; eauto.
    + intros H1 [= <-] Hm1 Hm2 Hi1 Hi2. rewrite Hm in Hm2. injection Hm2 as <-.
      rewrite Hip in Hi2. injection Hi2 as <-. exfalso. eapply Hfr; eauto.
    + apply Hd.
Qed.

Lemma mgr_inv_insert_other st id cn :
  mgr_inv st -> (forall n, mode cn <> NetworkMode.Bridge n) ->
  (mode cn = NetworkMode.Host \/ mode cn = NetworkMode.None -> ip_address cn = Datatypes.None) ->
  mgr_inv (set_container_networks (<[id := cn]> (container_networks st)) st).
Proof.
  intros [He Hd] Hnb Hno. split.
  - intros id' cn'. simpl. destruct (decide (id' = id)) as [->|Hne].
    + rewrite lookup_insert_eq. intros [= <-].
      destruct (mode cn) eqn:E; [exfalso; eapply Hnb; reflexivity|auto|auto|exact I].
    + rewrite lookup_insert_ne by congruence. apply He.
  - intros id1 id2 cn1 cn2 n' ip'. simpl.
    destruct (decide (id1 = id)) as [->|Hne1], (decide (id2 = id)) as [->|Hne2];
      repeat first [rewrite lookup_insert_eq | rewrite lookup_insert_ne by congruence];
      try done.
    + intros [= <-] _ Hm1. exfalso. eapply Hnb. exact Hm1.
    + intros _ [= <-] _ Hm2. exfalso. eapply Hnb. exact Hm2.
    + apply Hd.
Qed.

Lemma mgr_inv_delete st id :
  mgr_inv st -> mgr_inv (set_container_networks (delete id (container_networks st)) st).
Proof.
  intros [He Hd]. split.
  - intros id' cn'. simpl. destruct (decide (id' = id)) as [->|Hne].
    + rewrite lookup_delete_eq. discriminate.
    + rewrite lookup_delete_ne by congruence. apply He.
  - intros id1 id2 cn1 cn2 n' ip'. simpl.
    destruct (decide (id1 = id)) as [->|Hne1]; [rewrite lookup_delete_eq; discriminate|].
    destruct (decide (id2 = id)) as [->|Hne2]; [intros _; rewrite lookup_delete_eq; discriminate|].
    rewrite !lookup_delete_ne by congruence. apply Hd.
Qed.

Lemma mgr_inv_release st n ip :
  mgr_inv st ->
  (forall id' cn', container_networks st !! id' = Some cn' ->
     mode cn' = NetworkMode.Bridge n -> ip_address cn' <> Some ip) ->
  mgr_inv (match networks st !! n with
           | Some net => set_networks (<[n := with_allocator net
                                         (release ip (nc_allocator net))]> (networks st)) st
           | Datatypes.None => st
           end).
Proof.
  intros [He Hd] Hfr. destruct (networks st !! n) as [net|] eqn:Hn; [|split; assumption].
  split; [|exact Hd].
  intros id cn Hl. specialize (He id cn Hl). simpl. specialize (Hfr id cn Hl).
  destruct (mode cn) as [m| | |]; try exact He.
  destruct He as (ip' & net' & Hip & Hn' & Hin).
  destruct (decide (m = n)) as [->|Hne].
  - rewrite Hn in Hn'. injection Hn' as <-.
    exists ip', (with_allocator net (release ip (nc_allocator net))).
    rewrite lookup_insert_eq. repeat split; [exact Hip|]. simpl.
    assert (ip' <> ip) by (intros ->; apply (Hfr eq_refl Hip)). set_solver.
  - exists ip', net'. rewrite lookup_insert_ne by congruence. auto.
Qed.

Lemma setup_bridge_inv env id pid n ports st r st' :
  mgr_inv st -> setup_bridge_network env id pid n ports st = (r, st') -> mgr_inv st'.
Proof.
  intros Hi H. unfold setup_bridge_network in H.
  pose proof (same_maps_refl st) as Hc.
  adv H.
  destruct (networks st !! n) as [net|] eqn:Hn; [|adv H].
  adv H.
  destruct (allocate (ping_of env) (nc_allocator net)) as [ra al'] eqn:Ha.
  rewrite bind_modify in H.
  pose proof (mgr_inv_alloc_write _ _ _ _ _ _ Hi Hn Ha) as Hi1.
  destruct ra as [ip|e|p]; [|clear Hc; pose proof (same_maps_refl (set_networks (<[n:=with_allocator net al']> (networks st)) st)) as Hc; clear Hi; adv H..].
  apply allocate_ok in Ha as (Hnotin & _ & Hin).
  assert (Hfr : forall id' cn', container_networks st !! id' = Some cn' ->
            mode cn' = NetworkMode.Bridge n -> ip_address cn' <> Some ip).
  { intros id' cn' Hl Hm Hip. destruct Hi as [He _]. specialize (He _ _ Hl).
    rewrite Hm in He. destruct He as (ip' & net' & Hip' & Hn' & Hin').
    rewrite Hn in Hn'. injection Hn' as <-. rewrite Hip in Hip'. injection Hip' as <-.
    contradiction. }
  clear Hc Hi. pose proof (same_maps_refl (set_networks (<[n:=with_allocator net al']> (networks st)) st)) as Hc.
  repeat adv H.
  match goal with Hc : same_maps _ ?sk |- _ =>
    destruct Hc as [Hnk Hck]; unfold insert_container in H; rewrite bind_modify in H;
    cbv beta in H;
    assert (Hi2 : mgr_inv (set_container_networks (<[id := mkContainerNetwork
       (NetworkMode.Bridge n) (Some ip) (Some (nc_gateway (with_allocator net al')))
       (Some ("veth" +:+ a0)) (Some ("vethc" +:+ a0)) ports]> (container_networks sk)) sk))
  end.
  { eapply mgr_inv_insert_bridge; [| reflexivity | reflexivity | | |].
    - eapply mgr_inv_same; [split; eassumption|exact Hi1].
    - rewrite Hnk. simpl. apply lookup_insert_eq.
    - exact Hin.
    - rewrite Hck. exact Hfr. }
  clear Hi1.
  match type of Hi2 with mgr_inv ?s => pose proof (same_maps_refl s) as Hc end.
  repeat adv H.
  cbv [ret] in H. injection H as _ <-.
  eapply mgr_inv_same; eassumption.
Qed.

Ltac ins_other H :=
  unfold insert_container in H; rewrite bind_modify in H; cbv beta in H;
  match type of H with
  | context [set_container_networks (<[?id := ?cn]> (container_networks ?s)) ?s] =>
      match goal with Hc : same_maps ?s0 s, Hi : mgr_inv ?s0 |- _ =>
        pose proof (mgr_inv_insert_other s id cn (mgr_inv_same _ _ Hc Hi)) as Hk;
        clear Hc Hi;
        pose proof (same_maps_refl (set_container_networks (<[id := cn]> (container_networks s)) s))
          as Hc
      end
  end.

Lemma setup_inv env id pid m ports st r st' :
  mgr_inv st -> setup_container_network env id pid m ports st = (r, st') -> mgr_inv st'.
Proof.
  intros Hi H. pose proof (same_maps_refl st) as Hc.
  destruct m as [n| | |peer]; simpl in H.
  - eapply setup_bridge_inv; eassumption.
  - unfold setup_host_network in H. ins_other H.
    specialize (Hk ltac:(discriminate) ltac:(reflexivity)).
    repeat adv H. cbv [ret] in H. injection H as _ <-. eapply mgr_inv_same; eassumption.
  - unfold setup_none_network in H. adv H. ins_other H.
    specialize (Hk ltac:(discriminate) ltac:(reflexivity)).
    repeat adv H. cbv [ret] in H. injection H as _ <-. eapply mgr_inv_same; eassumption.
  - unfold setup_container_network_shared in H. adv H.
    destruct (container_networks st !! peer) as [t|] eqn:Ht; [|adv H].
    adv H. ins_other H.
    specialize (Hk ltac:(discriminate) ltac:(intros [? | ?]; discriminate)).
    repeat adv H. cbv [ret] in H. injection H as _ <-. eapply mgr_inv_same; eassumption.
Qed.

Lemma keeps_final {A} (m : M A) s r s' :
  keeps_maps m -> m s = (r, s') -> same_maps s s'.
Proof. intros Hm E. eapply Hm. exact E. Qed.

Lemma manager_cleanup_inv env id st r st' :
  mgr_inv st -> manager_cleanup_container_network env id st = (r, st') -> mgr_inv st'.
Proof.
  intros Hi H. pose proof (same_maps_refl st) as Hc.
  unfold manager_cleanup_container_network in H. adv H.
  destruct (container_networks st !! id) as [cn|] eqn:Hl.
  2:{ cbv [ret] in H. injection H as _ <-. exact Hi. }
  rewrite bind_modify in H. cbv beta in H.
  pose proof (mgr_inv_delete _ id Hi) as Hd.
  assert (Hfr0 : forall n ip, mode cn = NetworkMode.Bridge n -> ip_address cn = Some ip ->
            forall id' cn', container_networks (set_container_networks
                              (delete id (container_networks st)) st) !! id' = Some cn' ->
            mode cn' = NetworkMode.Bridge n -> ip_address cn' <> Some ip).
  { intros n ip Hm Hip id' cn' Hl' Hm' Hip'. simpl in Hl'.
    destruct (decide (id' = id)) as [->|Hne]; [rewrite lookup_delete_eq in Hl'; discriminate|].
    rewrite lookup_delete_ne in Hl' by congruence.
    apply Hne. destruct Hi as [_ Hdist]. eapply Hdist; eauto. }
  clear Hi. match goal with Hc : same_maps _ _ |- _ => clear Hc end.
  pose proof (same_maps_refl (set_container_networks (delete id (container_networks st)) st)) as Hc.
  destruct (mode cn) as [n| | |] eqn:Hm;
    [|cbv [ret] in H; injection H as _ <-; exact Hd ..].
  adv H.
  destruct (ip_address cn) as [ip|] eqn:Hip.
  - rewrite bind_modify in H. cbv beta in H.
    match goal with Hc : same_maps _ ?sk |- _ =>
      pose proof (mgr_inv_release sk n ip (mgr_inv_same _ _ Hc Hd)) as Hr;
      destruct Hc as [Hnk Hck]
    end.
    specialize (Hr ltac:(rewrite Hck; exact (Hfr0 n ip eq_refl eq_refl))).
    destruct (veth_host cn) as [vh|].
    + apply keeps_final in H; [|solve [keeps]]. eapply mgr_inv_same; eassumption.
    + cbv [ret] in H. injection H as _ <-. exact Hr.
  - adv H. destruct (veth_host cn) as [vh|].
    + apply keeps_final in H; [|solve [keeps]].
      match goal with Hc : same_maps _ ?sk |- _ =>
        eapply mgr_inv_same; [eapply same_maps_trans; [exact Hc|exact H]|exact Hd]
      end.
    + cbv [ret] in H. injection H as _ <-. eapply mgr_inv_same; eassumption.
Qed.

Lemma cleanup_inv env id st r st' :
  mgr_inv st -> cleanup_container_network env id st = (r, st') -> mgr_inv st'.
Proof.
  intros Hi H. unfold cleanup_container_network, bind in H.
  destruct (manager_cleanup_container_network env id st) as [r1 s1] eqn:E.
  apply manager_cleanup_inv in E; [|exact Hi].
  destruct r1 as [u|e|p]; [|injection H as _ <-; exact E ..].
  destruct (ignore (run_cmd env hairpin_delete_args) s1) as [r2 s2] eqn:E2.
  apply keeps_final in E2; [|solve [keeps]].
  destruct r2; injection H as _ <-; eapply mgr_inv_same; eassumption.
Qed.

Lemma new_inv env st0 st :
  NetworkManager_new env st0 = (Ok tt, st) -> mgr_inv st.
Proof.
  intros H. unfold NetworkManager_new in H.
  apply bind_ok_inv in H as (u & st1 & H1 & H).
  cbv [modify] in H1. injection H1 as _ <-.
  apply create_network_ok in H as (? & ? & ? & ? & ? & ? & ? & Hc).
  simpl in Hc. split.
  - intros id cn. rewrite Hc. rewrite lookup_empty. discriminate.
  - intros id1 id2 cn1 cn2 n ip. rewrite Hc. rewrite lookup_empty. discriminate.
Qed.

Lemma reachable_inv st : reachable st -> mgr_inv st.
Proof.
  induction 1.
  - eapply new_inv; eassumption.
  - eapply setup_inv; eassumption.
  - eapply cleanup_inv; eassumption.
Qed.

Lemma insert_tail {B} id cn (k : unit -> M B) s b s' :
  (forall u, keeps_maps (k u)) ->
  bind (insert_container id cn) k s = (Ok b, s') ->
  k tt (set_container_networks (<[id := cn]> (container_networks s)) s) = (Ok b, s') /\
  container_networks s' !! id = Some cn.
Proof.
  intros Hk H. unfold insert_container in H. rewrite bind_modify in H.
  split; [exact H|].
  destruct (Hk tt _ _ _ H) as [_ ->]. simpl. apply lookup_insert_eq.
Qed.

Lemma slice_ret {A} x i j (c : A) s b s' :
  bind (slice x i j) (fun _ => ret c) s = (Ok b, s') -> b = c.
Proof.
  intros H. ok_keep H. cbv [ret] in H. congruence.
Qed.

Lemma setup_ok_entry env id pid m ports st cn st' :
  setup_container_network env id pid m ports st = (Ok cn, st') ->
  container_networks st' !! id = Some cn /\
  (forall peer, m = NetworkMode.Container peer ->
     mode cn = NetworkMode.Container peer /\
     exists pcn, container_networks st !! peer = Some pcn /\ ip_address cn = ip_address pcn /\
                 gateway cn = gateway pcn).
Proof.
  intros H. destruct m as [n| | |peer]; simpl in H.
  - split; [|discriminate].
    unfold setup_bridge_network in H. ok_keep H.
    destruct (networks st !! n) as [net|]; [|cbv [bind panic] in H; congruence].
    ok_keep H. destruct (allocate (ping_of env) (nc_allocator net)) as [[ip|e|p] al'].
    2,3: rewrite bind_modify in H; cbv [bind lift] in H; congruence.
    rewrite bind_modify in H. cbv beta in H. repeat ok_keep H.
    apply insert_tail in H as [H ?]; [|intros; solve [keeps]].
    apply slice_ret in H. subst. assumption.
  - split; [|discriminate].
    unfold setup_host_network in H.
    apply insert_tail in H as [H ?]; [|intros; solve [keeps]].
    apply slice_ret in H. subst. assumption.
  - split; [|discriminate].
    unfold setup_none_network in H. ok_keep H.
    apply insert_tail in H as [H ?]; [|intros; solve [keeps]].
    apply slice_ret in H. subst. assumption.
  - unfold setup_container_network_shared in H. ok_keep H.
    destruct (container_networks st !! peer) as [t|] eqn:Ht; [|cbv [bind panic] in H; congruence].
    ok_keep H.
    apply insert_tail in H as [H Hl]; [|intros; solve [keeps]].
    ok_keep H. apply slice_ret in H. subst.
    split; [assumption|]. intros peer' [= <-]. split; [reflexivity|].
    exists t. split; [eassumption|]. split; reflexivity.
Qed.

(** C7 (as the code has it): from any state a run reaches, a successful
    [setup_container_network] leaves a container map in which every
    [Bridge] entry holds an address kept in its network's allocator and
    every [Host] or [None] entry holds none; the new entry is the one
    returned, and in [Container] mode it carries the address (and
    gateway) copied from its peer's entry, [Some] for a bridged peer. *)
Theorem container_map_entries env container_id pid m ports st cn st' :
  reachable st ->
  setup_container_network env container_id pid m ports st = (Ok cn, st') ->
  entries_consistent st' /\
  container_networks st' !! container_id = Some cn /\
  (forall peer, m = NetworkMode.Container peer ->
     mode cn = NetworkMode.Container peer /\
     exists pcn, container_networks st !! peer = Some pcn /\
                 ip_address cn = ip_address pcn /\ gateway cn = gateway pcn /\
                 (forall n, mode pcn = NetworkMode.Bridge n -> exists ip, ip_address cn = Some ip)).
Proof.
  intros Hr H.
  pose proof (reachable_inv _ (reach_setup _ _ _ _ _ _ _ _ Hr H)) as [He _].
  pose proof (reachable_inv _ Hr) as [Hst _].
  destruct (setup_ok_entry _ _ _ _ _ _ _ _ H) as [Hl Hc].
  split; [exact He|]. split; [exact Hl|].
  intros peer Hp. destruct (Hc peer Hp) as [Hm (pcn & Hpe & Hip & Hgw)].
  split; [exact Hm|]. exists pcn. split; [exact Hpe|]. split; [exact Hip|]. split; [exact Hgw|].
  intros n Hn. specialize (Hst _ _ Hpe). rewrite Hn in Hst.
  destruct Hst as (ip & net & Hi & _). rewrite Hip. eauto.
Qed.

Lemma container_map_entries_witness :
  exists cn st',
    reachable st_bridged /\
    setup_container_network env_ok peer_id 4243 (NetworkMode.Container sample_id) []
      st_bridged = (Ok cn, st') /\
    entries_consistent st' /\
    container_networks st' !! peer_id = Some cn /\
    (forall peer, NetworkMode.Container sample_id = NetworkMode.Container peer ->
       mode cn = NetworkMode.Container peer /\
       exists pcn, container_networks st_bridged !! peer = Some pcn /\
                   ip_address cn = ip_address pcn /\ gateway cn = gateway pcn /\
                   (forall n, mode pcn = NetworkMode.Bridge n ->
                      exists ip, ip_address cn = Some ip)).
Proof.
  assert (Hr : reachable st_bridged).
  { apply (reach_setup env_ok st_new sample_id 4242 (NetworkMode.Bridge "bridge") []
             (fst (setup_container_network env_ok sample_id 4242
                     (NetworkMode.Bridge "bridge") [] st_new))).
    - apply (reach_new env_ok st_empty). vm_compute. reflexivity.
    - apply surjective_pairing. }
  eexists. eexists. split; [exact Hr|].
  split; [vm_compute; reflexivity|].
  apply (container_map_entries env_ok peer_id 4243 (NetworkMode.Container sample_id) []
           st_bridged); [exact Hr|].
  vm_compute. reflexivity.
Defined.

(** C7 as stated fails: a [Container]-mode entry whose peer is bridged
    holds the peer's address, not [None]. *)
Lemma container_mode_copies_peer_ip :
  exists cn,
    setup_container_network env_ok peer_id 4243 (NetworkMode.Container sample_id) []
      st_bridged =
      (Ok cn, snd (setup_container_network env_ok peer_id 4243
                     (NetworkMode.Container sample_id) [] st_bridged)) /\
    container_networks (snd (setup_container_network env_ok peer_id 4243
                               (NetworkMode.Container sample_id) [] st_bridged)) !! peer_id
      = Some cn /\
    mode cn = NetworkMode.Container sample_id /\
    ip_address cn = Some 2886795266 /\
    ipv4_to_string 2886795266 = "172.17.0.2".
Proof.
  eexists. split; [vm_compute; reflexivity|].
  repeat split; vm_compute; reflexivity.
Qed.

(* ------------------------------------------------------------------ *)
(** ** The exit code                                                    *)
(* ------------------------------------------------------------------ *)

Lemma tfor_ok {X} (f : X -> TM unit) xs tr :
  (forall x tr, exists tr', f x tr = (Ok tt, tr')) ->
  exists tr', tfor f xs tr = (Ok tt, tr').
Proof.
  intros Hf. revert tr. induction xs as [|x xs IH]; intros tr; simpl; [eauto|].
  unfold tbind. destruct (Hf x tr) as [tr1 ->]. apply IH.
Qed.

Lemma setup_volume_payload answers pe v tr :
  exists tr', setup_volume (payload_op_res answers) pe v tr = (Ok tt, tr').
Proof.
  unfold setup_volume, tbind, op, tret. destruct (negb (pe (source v))); simpl; eauto.
Qed.

Lemma mount_volume_payload answers pe r v tr :
  exists tr', mount_volume (payload_op_res answers) pe r v tr = (Ok tt, tr').
Proof.
  unfold mount_volume, tbind, op, tret.
  destruct (negb _); simpl; destruct (read_only v); simpl; eauto.
Qed.

Lemma collect_res_no_panic {A} (rs : list (res A)) p :
  collect_res rs = Panic p -> In (Panic p) rs.
Proof.
  induction rs as [|r rs IH]; simpl; [discriminate|].
  destruct r as [a|e|q]; [|discriminate|intros [= ->]; left; reflexivity].
  destruct (collect_res rs) eqn:E; try discriminate. intros [= ->]. right. apply IH. reflexivity.
Qed.

Lemma volumes_payload answers pe c tr :
  (forall p, ~ In (Panic p) (parsed_volumes c)) ->
  (exists v tr', (match parsed_volumes c with
                  | [] => tret Datatypes.None
                  | _ => let? v := setup_volumes (payload_op_res answers) pe
                                     (parsed_volumes c) (rootfs c) in
                         tret (Some v)
                  end) tr = (Ok v, tr')) \/
  (exists e tr', (match parsed_volumes c with
                  | [] => tret Datatypes.None
                  | _ => let? v := setup_volumes (payload_op_res answers) pe
                                     (parsed_volumes c) (rootfs c) in
                         tret (Some v)
                  end) tr = (Err e, tr')).
Proof.
  intros Hnp. destruct (parsed_volumes c) as [|r0 rs] eqn:Ep; [left; eexists _, _; reflexivity|].
  unfold setup_volumes, tbind at 1 2, tlift.
  destruct (collect_res (r0 :: rs)) as [vms|e|p] eqn:Ec;
    [| right; eexists _, _; reflexivity
     | exfalso; apply collect_res_no_panic in Ec; apply (Hnp p); first [exact Ec | rewrite Ep; exact Ec]].
  unfold tbind.
  destruct (tfor_ok _ vms tr (setup_volume_payload answers pe)) as [tr1 ->].
  destruct (tfor_ok _ vms tr1 (mount_volume_payload answers pe (rootfs c))) as [tr2 E].
  unfold tignore, setup_fs. rewrite E. left. eexists _, _. reflexivity.
Qed.

Lemma run_payload_failure answers pe c e :
  (forall p, ~ In (Panic p) (parsed_volumes c)) ->
  execute_without_pty answers = Some (Err e) ->
  (exists e', fst (run_container_with_sync (payload_op_res answers) pe c []) = Err e') /\
  (exists e', fst (run_container (payload_op_res answers) pe c []) = Err e').
Proof.
  intros Hnp He.
  assert (Hl : forall tr, exists tr',
            (if has_limits c then
               let? _ := op (payload_op_res answers) CgroupNew in
               let? _ := op (payload_op_res answers) CgroupSetup in
               op (payload_op_res answers) CgroupAddProcess
             else tret tt) tr = (Ok tt, tr')).
  { intros tr. destruct (has_limits c); eexists; reflexivity. }
  split; [unfold run_container_with_sync|unfold run_container];
  unfold tbind at 1; destruct (Hl []) as [tr1 ->];
  (destruct (volumes_payload answers pe c tr1 Hnp) as [(v & tr2 & E)|(e2 & tr2 & E)];
   unfold tbind at 1; rewrite E; [|eexists; reflexivity]);
  cbv [tbind op tignore payload_op_res]; rewrite He; eexists; reflexivity.
Qed.

(** C1: in the isolated-network path, when the payload fails (for
    instance exits with a non-zero status), the forked container process
    exits with 1, yet [corerun] itself exits with 0: the parent ignores
    the status [waitpid] reports.  The host-network path, which returns
    [run_container]'s result, exits with 1 on the same run. *)
Theorem isolated_payload_failure_exits_zero answers c cleanup e :
  (forall p, ~ In (Panic p) (parsed_volumes c)) ->
  execute_without_pty answers = Some (Err e) ->
  child_exit_code (fst (run_container_with_sync (payload_op_res answers) (fun _ => true) c []))
    = 1 /\
  isolated_exit_code answers c cleanup = 0 /\
  direct_exit_code answers c = 1.
Proof.
  intros Hnp He.
  destruct (run_payload_failure answers (fun _ => true) c e Hnp He)
    as [[e1 E1] [e2 E2]].
  unfold isolated_exit_code, direct_exit_code. rewrite E1, E2.
  split; [reflexivity|]. split; reflexivity.
Qed.

Lemma isolated_payload_failure_exits_zero_witness :
  (forall p, ~ In (Panic p) (parsed_volumes sample_config)) /\
  execute_without_pty [WaitOk (Exited 1)] =
    Some (Err (ProcessExecution "Container process exited with non-zero status: 1")) /\
  child_exit_code (fst (run_container_with_sync (payload_op_res [WaitOk (Exited 1)])
                          (fun _ => true) sample_config [])) = 1 /\
  isolated_exit_code [WaitOk (Exited 1)] sample_config (Ok tt) = 0 /\
  direct_exit_code [WaitOk (Exited 1)] sample_config = 1.
Proof.
  assert (Hnp : forall p, ~ In (Panic p) (parsed_volumes sample_config)).
  { simpl. intros p [H|[]]. discriminate. }
  split; [exact Hnp|]. split; [reflexivity|].
  apply (isolated_payload_failure_exits_zero [WaitOk (Exited 1)] sample_config (Ok tt)
           (ProcessExecution "Container process exited with non-zero status: 1"));
    [exact Hnp|reflexivity].
Defined.

(* ------------------------------------------------------------------ *)
(** ** Order of the container process's operations                     *)
(* ------------------------------------------------------------------ *)

(** [m] only appends operations satisfying [P] to the trace. *)
Definition appends (P : ChildOp -> Prop) {A} (m : TM A) : Prop :=
  forall tr r tr', m tr = (r, tr') -> exists ext, tr' = tr ++ ext /\ Forall P ext.

(** [m] appends operations satisfying [P], then operations satisfying [Q]. *)
Definition appends2 (P Q : ChildOp -> Prop) {A} (m : TM A) : Prop :=
  forall tr r tr', m tr = (r, tr') ->
  exists pre post, tr' = tr ++ pre ++ post /\ Forall P pre /\ Forall Q post.

Lemma appends_tret P {A} (a : A) : appends P (tret a).
Proof. intros tr r tr' [= _ <-]. exists []. rewrite app_nil_r. auto. Qed.

Lemma appends_tlift P {A} (x : res A) : appends P (tlift x).
Proof. intros tr r tr' [= _ <-]. exists []. rewrite app_nil_r. auto. Qed.

Lemma appends_op P f o : P o -> appends P (op f o).
Proof. intros Ho tr r tr' [= _ <-]. exists [o]. auto. Qed.

Lemma appends_tbind P {A B} (m : TM A) (k : A -> TM B) :
  appends P m -> (forall a, appends P (k a)) -> appends P (tbind m k).
Proof.
  intros Hm Hk tr r tr'. unfold tbind.
  destruct (m tr) as [[a|e|p] tr1] eqn:E; intros H;
    destruct (Hm _ _ _ E) as (ext1 & -> & F1).
  - destruct (Hk a _ _ _ H) as (ext2 & -> & F2).
    exists (ext1 ++ ext2). rewrite app_assoc. split; [done|]. apply Forall_app; auto.
  - injection H as _ <-. eauto.
  - injection H as _ <-. eauto.
Qed.

Lemma appends_tignore P {A} (m : TM A) : appends P m -> appends P (tignore m).
Proof.
  intros Hm tr r tr'. unfold tignore.
  destruct (m tr) as [[a|e|p] tr1] eqn:E; intros [= _ <-]; eapply Hm; exact E.
Qed.

Lemma appends_tfor P {X} (f : X -> TM unit) xs :
  (forall x, appends P (f x)) -> appends P (tfor f xs).
Proof.
  intros Hf. induction xs as [|x xs IH]; simpl; [apply appends_tret|].
  apply appends_tbind; auto.
Qed.

Lemma appends2_tbind P Q {A B} (m : TM A) (k : A -> TM B) :
  appends P m -> (forall a, appends2 P Q (k a)) -> appends2 P Q (tbind m k).
Proof.
  intros Hm Hk tr r tr'. unfold tbind.
  destruct (m tr) as [[a|e|p] tr1] eqn:E; intros H;
    destruct (Hm _ _ _ E) as (ext1 & -> & F1).
  - destruct (Hk a _ _ _ H) as (pre & post & -> & F2 & F3).
    exists (ext1 ++ pre), post. rewrite !app_assoc. split; [done|].
    split; [apply Forall_app; auto|done].
  - injection H as _ <-. exists ext1, []. rewrite app_nil_r. auto.
  - injection H as _ <-. exists ext1, []. rewrite app_nil_r. auto.
Qed.

Lemma appends2_of P Q {A} (m : TM A) : appends Q m -> appends2 P Q m.
Proof.
  intros Hm tr r tr' H. destruct (Hm _ _ _ H) as (ext & -> & F). exists [], ext. auto.
Qed.

Create HintDb appends.
Hint Resolve appends_tret appends_tlift appends_tignore : appends.

Ltac appends_solve :=
  repeat match goal with
  | |- appends _ (tbind _ _) => apply appends_tbind; [|intro]
  | |- appends _ (tignore _) => apply appends_tignore
  | |- appends _ (tfor _ _) => apply appends_tfor; intro
  | |- appends _ (if ?b then _ else _) => destruct b
  | |- appends _ (op _ _) => apply appends_op; simpl
  | |- appends _ (match ?x with _ => _ end) => destruct x
  | |- appends _ _ => solve [eauto with appends]
  | |- appends _ (?f _) => unfold f; cbv beta zeta
  | |- appends _ (?f _ _) => unfold f; cbv beta zeta
  | |- appends _ (?f _ _ _) => unfold f; cbv beta zeta
  | |- appends _ (?f _ _ _ _) => unfold f; cbv beta zeta
  | |- appends _ (?f _ _ _ _ _) => unfold f; cbv beta zeta
  | |- _ <> _ => discriminate
  | |- _ = false => reflexivity
  end.

(** C2 (as the code has it): in every run of the container process of the
    isolated-network path, whatever the host answers, the trace splits
    into a part that does not contain [unshare] and holds every volume
    bind-mount and read-only remount, followed by a part with no volume
    mount: [setup_volumes] mounts the volumes before
    [unshare_namespaces] creates the new mount namespace, never after. *)
Theorem volume_mounts_precede_unshare op_res path_exists c r tr :
  run_container_with_sync op_res path_exists c [] = (r, tr) ->
  exists pre post,
    tr = pre ++ post /\
    (forall o, In o pre -> o <> Unshare) /\
    (forall o, In o post -> is_volume_mount o = false).
Proof.
  intros H.
  assert (Hr : appends2 (fun o => o <> Unshare) (fun o => is_volume_mount o = false)
                 (run_container_with_sync op_res path_exists c)).
  { unfold run_container_with_sync.
    apply appends2_tbind; [appends_solve|intros _].
    apply appends2_tbind; [appends_solve|intros vm].
    apply appends2_of. appends_solve. }
  destruct (Hr _ _ _ H) as (pre & post & -> & F1 & F2).
  exists pre, post. split; [reflexivity|].
  rewrite List.Forall_forall in F1, F2. auto.
Qed.

Lemma volume_mounts_precede_unshare_witness :
  run_container_with_sync (fun _ => Ok tt) (fun _ => false) sample_config [] =
    (Ok tt, snd (run_container_with_sync (fun _ => Ok tt) (fun _ => false) sample_config [])) /\
  exists pre post,
    snd (run_container_with_sync (fun _ => Ok tt) (fun _ => false) sample_config []) =
      pre ++ post /\
    (forall o, In o pre -> o <> Unshare) /\
    (forall o, In o post -> is_volume_mount o = false).
Proof.
  split; [vm_compute; reflexivity|].
  apply (volume_mounts_precede_unshare (fun _ => Ok tt) (fun _ => false) sample_config
           (Ok tt)).
  vm_compute. reflexivity.
Defined.

(** C2 as stated fails: with the volume [/data:/data], the bind-mount of
    the volume comes before [unshare] in the container process's trace. *)
Lemma volume_mounted_before_unshare :
  exists i j,
    nth_error (snd (run_container_with_sync (fun _ => Ok tt) (fun _ => false)
                      sample_config [])) i =
      Some (BindMount "/data" "/var/lib/corerun/rootfs/data") /\
    nth_error (snd (run_container_with_sync (fun _ => Ok tt) (fun _ => false)
                      sample_config [])) j = Some Unshare /\
    (i < j)%nat.
Proof.
  exists 3%nat, 4%nat. vm_compute. repeat split. lia.
Qed.

(* ------------------------------------------------------------------ *)
(** ** Further properties of the code                                  *)
(* ------------------------------------------------------------------ *)

Lemma digit_char d :
  (d < 10)%nat -> digit_value (Ascii.ascii_of_nat (48 + d)) = Some (Z.of_nat d).
Proof.
  intros Hd. do 10 (destruct d as [|d]; [reflexivity|]). lia.
Qed.

Lemma dec_digits_cons a c s :
  dec_digits a (String c s) =
  match digit_value c with Some d => dec_digits (a * 10 + d) s | Datatypes.None => Datatypes.None end.
Proof. reflexivity. Qed.

Lemma dec_aux_S f n s :
  dec_aux (S f) n s =
  if n <? 10 then String (Ascii.ascii_of_nat (48 + Z.to_nat (n mod 10))) s
  else dec_aux f (n / 10) (String (Ascii.ascii_of_nat (48 + Z.to_nat (n mod 10))) s).
Proof. reflexivity. Qed.

Lemma dec_aux_digits f : forall n s a,
  0 <= n < 10 ^ Z.of_nat f ->
  exists k, 0 <= k /\ dec_digits a (dec_aux f n s) = dec_digits (a * 10 ^ k + n) s.
Proof.
  induction f as [|f IH]; intros n s a Hn.
  - change (10 ^ Z.of_nat 0) with 1 in Hn. exists 0. split; [lia|].
    change (dec_aux 0 n s) with s. f_equal. lia.
  - rewrite Nat2Z.inj_succ, Z.pow_succ_r in Hn by lia.
    assert (Hm : 0 <= n mod 10 < 10) by (apply Z.mod_pos_bound; lia).
    assert (Hc : digit_value (Ascii.ascii_of_nat (48 + Z.to_nat (n mod 10))) = Some (n mod 10)).
    { rewrite digit_char by lia. f_equal. apply Z2Nat.id. lia. }
    rewrite dec_aux_S. destruct (n <? 10) eqn:Hlt.
    + apply Z.ltb_lt in Hlt. exists 1. split; [lia|]. rewrite dec_digits_cons, Hc.
      rewrite Z.mod_small by lia. f_equal; lia.
    + apply Z.ltb_ge in Hlt.
      destruct (IH (n / 10) (String (Ascii.ascii_of_nat (48 + Z.to_nat (n mod 10))) s) a)
        as (k & Hk & E).
      { split; [apply Z.div_pos; lia|]. apply Z.div_lt_upper_bound; lia. }
      exists (k + 1). split; [lia|]. rewrite E, dec_digits_cons, Hc. f_equal.
      rewrite Z.pow_add_r by lia. pose proof (Z.div_mod n 10). lia.
Qed.

Lemma z_to_dec_digits n : 0 <= n < 10 ^ 20 -> dec_digits 0 (z_to_dec n) = Some n.
Proof.
  intros Hn. destruct (dec_aux_digits 20 n EmptyString 0) as (k & _ & E); [exact Hn|].
  unfold z_to_dec. rewrite E, Z.mul_0_l, Z.add_0_l. reflexivity.
Qed.

Lemma z_to_dec_inj a b :
  0 <= a < 10 ^ 20 -> 0 <= b < 10 ^ 20 -> z_to_dec a = z_to_dec b -> a = b.
Proof.
  intros Ha Hb E. apply z_to_dec_digits in Ha, Hb. congruence.
Qed.

Lemma dec_aux_chars f : forall n s,
  Forall is_digit (list_ascii_of_string s) ->
  Forall is_digit (list_ascii_of_string (dec_aux f n s)).
Proof.
  induction f as [|f IH]; intros n s Hs; [exact Hs|]. rewrite dec_aux_S.
  assert (Hc : is_digit (Ascii.ascii_of_nat (48 + Z.to_nat (n mod 10)))).
  { unfold is_digit. rewrite digit_char; [discriminate|].
    pose proof (Z.mod_pos_bound n 10). lia. }
  destruct (n <? 10); [simpl; constructor; assumption|].
  apply IH. simpl. constructor; assumption.
Qed.

Lemma z_to_dec_chars n : Forall is_digit (list_ascii_of_string (z_to_dec n)).
Proof. apply dec_aux_chars. constructor. Qed.

Lemma dec_aux_head f : forall n s,
  exists c r, dec_aux (S f) n s = String c r /\ is_digit c.
Proof.
  assert (Hc : forall n, is_digit (Ascii.ascii_of_nat (48 + Z.to_nat (n mod 10)))).
  { intros n. unfold is_digit. rewrite digit_char; [discriminate|].
    pose proof (Z.mod_pos_bound n 10). lia. }
  induction f as [|f IH]; intros n s.
  - rewrite dec_aux_S. destruct (n <? 10); eauto.
  - rewrite dec_aux_S. destruct (n <? 10); eauto.
Qed.

Lemma parse_uint_digit max c r :
  is_digit c ->
  parse_uint max (String c r) =
  match dec_digits 0 (String c r) with
  | Some v => if v <=? max then Some v else Datatypes.None
  | Datatypes.None => Datatypes.None
  end.
Proof.
  unfold is_digit. intros H.
  destruct c as [[] [] [] [] [] [] [] []];
    first [reflexivity | exfalso; apply H; reflexivity].
Qed.

Lemma parse_uint_dec max n :
  0 <= n < 10 ^ 20 ->
  parse_uint max (z_to_dec n) = if n <=? max then Some n else Datatypes.None.
Proof.
  intros Hn. destruct (dec_aux_head 19 n EmptyString) as (c & r & E & Hc).
  unfold z_to_dec. rewrite E, parse_uint_digit by exact Hc. rewrite <- E.
  change (dec_aux 20 n "") with (z_to_dec n). rewrite z_to_dec_digits by exact Hn.
  reflexivity.
Qed.

Lemma split_on_nonempty c s : split_on c s <> [].
Proof.
  destruct s as [|a s]; simpl; [discriminate|].
  destruct (Ascii.eqb a c); [discriminate|]. destruct (split_on c s); discriminate.
Qed.

Lemma str_app_nil_l (s : string) : ("" ++ s)%string = s.
Proof. reflexivity. Qed.
Lemma str_app_cons x (a s : string) : (String x a ++ s)%string = String x (a ++ s).
Proof. reflexivity. Qed.

Lemma split_on_app c a s :
  Forall (fun x => x <> c) (list_ascii_of_string a) ->
  split_on c (a ++ s) =
  match split_on c s with
  | p :: ps => (a ++ p)%string :: ps
  | [] => [a]
  end.
Proof.
  induction a as [|x a IH]; intros Ha; rewrite ?str_app_nil_l, ?str_app_cons; cbn [split_on].
  - destruct (split_on c s) eqn:E; [exfalso; exact (split_on_nonempty c s E)|reflexivity].
  - inversion Ha as [|? ? Hx Ha']; subst.
    rewrite IH by exact Ha'.
    destruct (Ascii.eqb x c) eqn:Ex; [apply Ascii.eqb_eq in Ex; congruence|].
    destruct (split_on c s) eqn:E; [exfalso; exact (split_on_nonempty c s E)|reflexivity].
Qed.

Lemma string_app_nil_r (s : string) : (s ++ "")%string = s.
Proof. induction s as [|a s IH]; [reflexivity|]. rewrite str_app_cons. congruence. Qed.

Lemma split_on_only c a :
  Forall (fun x => x <> c) (list_ascii_of_string a) -> split_on c a = [a].
Proof.
  intros Ha. rewrite <- (string_app_nil_r a) at 1. rewrite split_on_app by exact Ha.
  simpl. rewrite string_app_nil_r. reflexivity.
Qed.

Lemma list_ascii_app (a b : string) :
  list_ascii_of_string (a ++ b) = list_ascii_of_string a ++ list_ascii_of_string b.
Proof. induction a as [|x a IH]; [reflexivity|]. rewrite str_app_cons. simpl. congruence. Qed.

Lemma digits_not c s :
  digit_value c = Datatypes.None ->
  Forall is_digit (list_ascii_of_string s) -> Forall (fun x => x <> c) (list_ascii_of_string s).
Proof.
  intros Hc H. eapply Forall_impl; [exact H|]. intros x Hx ->. exact (Hx Hc).
Qed.

Lemma split_dec_sep c n s :
  digit_value c = Datatypes.None ->
  split_on c (z_to_dec n ++ String c s) = z_to_dec n :: split_on c s.
Proof.
  intros Hc. rewrite split_on_app by (apply digits_not; [exact Hc|apply z_to_dec_chars]).
  simpl. rewrite Ascii.eqb_refl. rewrite string_app_nil_r. reflexivity.
Qed.

Lemma split_dec_only c n :
  digit_value c = Datatypes.None -> split_on c (z_to_dec n) = [z_to_dec n].
Proof.
  intros Hc. apply split_on_only, digits_not; [exact Hc|apply z_to_dec_chars].
Qed.

(** Extra property (X2, [add_port_forward], [remove_port_forward]): when
    every command can be spawned, both succeed and issue three commands;
    the first two deletions are the [-I chain 1] insertions turned into
    [-D chain], and the third one matches only when host and container
    ports are equal. *)
Theorem port_forward_delete_rules env hp ip cp p st st0 :
  (forall argv, cmd_output env argv <> Datatypes.None) ->
  0 <= hp <= 65535 -> 0 <= cp <= 65535 ->
  exists a1 a2 a3 d1 d2 d3,
    add_port_forward env hp ip cp p st0 = (Ok tt, push_cmd a3 (push_cmd a2 (push_cmd a1 st0))) /\
    remove_port_forward env hp ip cp p st = (Ok tt, push_cmd d3 (push_cmd d2 (push_cmd d1 st))) /\
    d1 = delete_form a1 /\ d2 = delete_form a2 /\ (d3 = delete_form a3 <-> hp = cp).
Proof.
  intros Henv Hh Hc.
  unfold add_port_forward, remove_port_forward, output_or, ignore, try_, bind, run_cmd, ret, fail.
  cbv zeta.
  repeat match goal with |- context [cmd_output env ?a] =>
    let o := fresh "o" in destruct (cmd_output env a) as [o|] eqn:?;
    [|exfalso; eapply Henv; eassumption] end.
  do 6 eexists. split; [reflexivity|]. split; [reflexivity|].
  split; [reflexivity|]. split; [reflexivity|]. simpl.
  split.
  - intros E. injection E as E. symmetry. apply z_to_dec_inj; [lia|lia|exact E].
  - intros ->. reflexivity.
Qed.

Lemma port_forward_delete_rules_witness :
  (forall argv, cmd_output env_ok argv <> Datatypes.None) /\
  exists a1 a2 a3 d1 d2 d3,
    add_port_forward env_ok 8080 2886795266 80 Protocol.TCP st_new =
      (Ok tt, push_cmd a3 (push_cmd a2 (push_cmd a1 st_new))) /\
    remove_port_forward env_ok 8080 2886795266 80 Protocol.TCP st_new =
      (Ok tt, push_cmd d3 (push_cmd d2 (push_cmd d1 st_new))) /\
    d1 = delete_form a1 /\ d2 = delete_form a2 /\ (d3 = delete_form a3 <-> 8080 = 80).
Proof.
  assert (H : forall argv, cmd_output env_ok argv <> Datatypes.None).
  { intros argv. unfold env_ok. simpl. repeat case_match; discriminate. }
  split; [exact H|].
  apply (port_forward_delete_rules env_ok 8080 2886795266 80 Protocol.TCP st_new st_new H); lia.
Defined.

Lemma ignore_ok_of {A} (m : M A) st :
  keeps_maps m -> (forall r st', m st = (r, st') -> forall p, r <> Panic p) ->
  exists st', ignore m st = (Ok tt, st') /\ same_maps st st'.
Proof.
  intros Hk Hp. unfold ignore, try_, bind.
  destruct (m st) as [[a|e|p] st'] eqn:E.
  - exists st'. split; [reflexivity|]. eapply Hk; exact E.
  - exists st'. split; [reflexivity|]. eapply Hk; exact E.
  - exfalso. exact (Hp _ _ eq_refl p eq_refl).
Qed.

Lemma remove_port_forward_no_panic env hp ip cp p st r st' :
  remove_port_forward env hp ip cp p st = (r, st') -> forall m, r <> Panic m.
Proof.
  cbv [remove_port_forward output_or ignore try_ bind run_cmd ret fail].
  intros E m ->. repeat case_match; congruence.
Qed.

Lemma delete_veth_no_panic env i st r st' :
  delete_veth env i st = (r, st') -> forall m, r <> Panic m.
Proof.
  cbv [delete_veth output_or bind run_cmd ret fail].
  intros E m ->. repeat case_match; congruence.
Qed.

Lemma for_each_port_always_ok f ps st :
  (forall p st, exists st', f p st = (Ok tt, st') /\ same_maps st st') ->
  exists st', for_each_port f ps st = (Ok tt, st') /\ same_maps st st'.
Proof.
  intros Hf. revert st. induction ps as [|p ps IH]; intros st; simpl.
  - exists st. split; [reflexivity|apply same_maps_refl].
  - destruct (Hf p st) as (s1 & E1 & H1). destruct (IH s1) as (s2 & E2 & H2).
    exists s2. unfold bind. rewrite E1. split; [exact E2|]. eapply same_maps_trans; eassumption.
Qed.

Lemma manager_cleanup_bridge env id st cn n ip net :
  container_networks st !! id = Some cn -> mode cn = NetworkMode.Bridge n ->
  ip_address cn = Some ip -> networks st !! n = Some net ->
  exists st', manager_cleanup_container_network env id st = (Ok tt, st') /\
    container_networks st' = delete id (container_networks st) /\
    networks st' = <[n := with_allocator net (release ip (nc_allocator net))]> (networks st).
Proof.
  intros Hl Hm Hip Hn. unfold manager_cleanup_container_network.
  unfold bind at 1. cbv [gets]. rewrite Hl, bind_modify, Hm.
  match goal with |- context [bind (for_each_port ?f ?ps) _ ?s] =>
    destruct (for_each_port_always_ok f ps s) as (s2 & E2 & [Hn2 Hc2]) end.
  { intros p s. rewrite Hip. apply ignore_ok_of; [solve [keeps]|].
    intros r s' E. eapply remove_port_forward_no_panic; exact E. }
  unfold bind at 1. rewrite E2, Hip, bind_modify. cbv beta.
  simpl in Hn2, Hc2. rewrite Hn2, Hn.
  destruct (veth_host cn) as [vh|].
  - match goal with |- context [ignore ?m ?s] =>
      destruct (ignore_ok_of m s) as (s3 & E3 & [Hn3 Hc3]) end.
    { solve [keeps]. }
    { intros r s' E. eapply delete_veth_no_panic; exact E. }
    exists s3. rewrite E3. split; [reflexivity|]. rewrite Hn3, Hc3. simpl.
    rewrite Hc2. split; reflexivity.
  - eexists. split; [reflexivity|]. simpl. rewrite Hc2. split; reflexivity.
Qed.

Lemma cleanup_bridge env id st cn n ip net r st' :
  container_networks st !! id = Some cn -> mode cn = NetworkMode.Bridge n ->
  ip_address cn = Some ip -> networks st !! n = Some net ->
  cleanup_container_network env id st = (r, st') ->
  r = Ok tt /\ container_networks st' = delete id (container_networks st) /\
  networks st' = <[n := with_allocator net (release ip (nc_allocator net))]> (networks st).
Proof.
  intros Hl Hm Hip Hn H.
  destruct (manager_cleanup_bridge env id st cn n ip net Hl Hm Hip Hn) as (s1 & E1 & Hc1 & Hn1).
  unfold cleanup_container_network, bind in H. rewrite E1 in H.
  cbv [ignore try_ bind run_cmd ret] in H. injection H as <- <-. simpl.
  split; [reflexivity|]. split; assumption.
Qed.

Lemma setup_bridge_mode env id pid n ports st cn st' :
  setup_container_network env id pid (NetworkMode.Bridge n) ports st = (Ok cn, st') ->
  mode cn = NetworkMode.Bridge n.
Proof.
  simpl. intros H. unfold setup_bridge_network in H. ok_keep H.
  destruct (networks st !! n) as [net|]; [|cbv [bind panic] in H; congruence].
  ok_keep H. destruct (allocate (ping_of env) (nc_allocator net)) as [[ip|e|p] al'].
  2,3: rewrite bind_modify in H; cbv [bind lift] in H; congruence.
  rewrite bind_modify in H. cbv beta in H. repeat ok_keep H.
  apply insert_tail in H as [H ?]; [|intros; solve [keeps]].
  apply slice_ret in H. subst. reflexivity.
Qed.

(** Extra property (X3, [setup_bridge_network] and
    [cleanup_container_network]): from a reachable state, cleaning up a
    container that was set up on a bridge succeeds, forgets the container
    and leaves its address free in the network's allocator. *)
Theorem bridge_setup_cleanup_releases env env' id pid n ports st cn st1 r st2 :
  reachable st ->
  setup_container_network env id pid (NetworkMode.Bridge n) ports st = (Ok cn, st1) ->
  cleanup_container_network env' id st1 = (r, st2) ->
  r = Ok tt /\ container_networks st2 = delete id (container_networks st1) /\
  exists ip net, ip_address cn = Some ip /\ networks st2 !! n = Some net /\
    ip ∉ allocated (nc_allocator net).
Proof.
  intros Hr Hs Hc.
  assert (Hi : mgr_inv st1) by (eapply setup_inv; [apply reachable_inv; exact Hr|exact Hs]).
  pose proof (setup_bridge_mode _ _ _ _ _ _ _ _ Hs) as Hm.
  apply setup_ok_entry in Hs as [Hl _].
  destruct Hi as [He _]. specialize (He id cn Hl). rewrite Hm in He.
  destruct He as (ip & net & Hip & Hn & _).
  destruct (cleanup_bridge env' id st1 cn n ip net r st2 Hl Hm Hip Hn Hc) as (-> & Hc2 & Hn2).
  split; [reflexivity|]. split; [exact Hc2|].
  exists ip, (with_allocator net (release ip (nc_allocator net))).
  split; [exact Hip|]. rewrite Hn2, lookup_insert_eq. split; [reflexivity|]. simpl. set_solver.
Qed.

Lemma st_bridged_reachable : reachable st_new /\ reachable st_bridged.
Proof.
  assert (H0 : reachable st_new) by (apply (reach_new env_ok st_empty); vm_compute; reflexivity).
  split; [exact H0|].
  apply (reach_setup env_ok st_new sample_id 4242 (NetworkMode.Bridge "bridge") []
           (fst (setup_container_network env_ok sample_id 4242
                   (NetworkMode.Bridge "bridge") [] st_new))); [exact H0|].
  apply surjective_pairing.
Qed.

Lemma bridge_setup_cleanup_releases_witness :
  exists cn r st2,
    reachable st_new /\
    setup_container_network env_ok sample_id 4242 (NetworkMode.Bridge "bridge") [] st_new
      = (Ok cn, st_bridged) /\
    cleanup_container_network env_delete_eperm sample_id st_bridged = (r, st2) /\
    r = Ok tt /\ container_networks st2 = delete sample_id (container_networks st_bridged) /\
    exists ip net, ip_address cn = Some ip /\ networks st2 !! "bridge" = Some net /\
      ip ∉ allocated (nc_allocator net).
Proof.
  destruct st_bridged_reachable as [H0 _].
  do 3 eexists. split; [exact H0|].
  split; [vm_compute; reflexivity|]. split; [apply surjective_pairing|].
  eapply (bridge_setup_cleanup_releases env_ok env_delete_eperm sample_id 4242 "bridge" []
            st_new); [exact H0| |apply surjective_pairing].
  vm_compute. reflexivity.
Defined.

Lemma get_none n s : (String.length s <= n)%nat -> String.get n s = Datatypes.None.
Proof.
  revert n; induction s as [|a s IH]; intros n Hn; [reflexivity|].
  destruct n as [|n]; simpl in Hn; [lia|]. simpl. apply IH. lia.
Qed.

Lemma slice_short s (Hs : (String.length s < 12)%nat) st :
  slice s 0 12 st = (Panic "byte index is out of bounds or not a char boundary", st).
Proof.
  unfold slice, is_char_boundary. rewrite (get_none 12 s) by lia.
  replace (Nat.eqb 12 (String.length s)) with false by (symmetry; apply Nat.eqb_neq; lia).
  rewrite andb_false_r. reflexivity.
Qed.

Lemma bind_gets {A B} (f : St -> A) (k : A -> M B) st : bind (gets f) k st = k (f st) st.
Proof. reflexivity. Qed.
Lemma bind_ret {A B} (a : A) (k : A -> M B) st : bind (ret a) k st = k a st.
Proof. reflexivity. Qed.
Lemma bind_lift_ok {A B} (a : A) (k : A -> M B) st : bind (lift (Ok a)) k st = k a st.
Proof. reflexivity. Qed.
Lemma bind_panic_first {A B} (m : M A) (k : A -> M B) st p st1 :
  m st = (Panic p, st1) -> bind m k st = (Panic p, st1).
Proof. unfold bind. intros ->. reflexivity. Qed.

(** Extra property (X4, [setup_bridge_network]): with a container id
    shorter than 12 bytes the setup panics, but the address it allocated
    stays held in the network's allocator and no container is recorded. *)
Theorem short_id_bridge_leaks env id pid n ports st net ip al' r st' :
  (String.length id < 12)%nat ->
  networks st !! n = Some net ->
  allocate (ping_of env) (nc_allocator net) = (Ok ip, al') ->
  setup_container_network env id pid (NetworkMode.Bridge n) ports st = (r, st') ->
  (exists p, r = Panic p) /\
  networks st' = <[n := with_allocator net al']> (networks st) /\
  ip ∈ allocated al' /\ (ip ∉ allocated (nc_allocator net)) /\
  container_networks st' = container_networks st.
Proof.
  intros Hlen Hn Ha H.
  unfold setup_container_network, setup_bridge_network in H.
  rewrite bind_gets, Hn, bind_ret, Ha, bind_modify, bind_lift_ok in H.
  rewrite (bind_panic_first _ _ _ _ _ (slice_short id Hlen _)) in H.
  injection H as <- <-. simpl.
  apply allocate_ok in Ha as (Hni & _ & Hin).
  split; [eauto|]. auto.
Qed.

Lemma short_id_bridge_leaks_witness :
  exists net ip al' r st',
    (String.length "c-1" < 12)%nat /\
    networks st_new !! "bridge" = Some net /\
    allocate (ping_of env_ok) (nc_allocator net) = (Ok ip, al') /\
    setup_container_network env_ok "c-1" 7 (NetworkMode.Bridge "bridge") [] st_new = (r, st') /\
    (exists p, r = Panic p) /\
    networks st' = <[ "bridge" := with_allocator net al']> (networks st_new) /\
    ip ∈ allocated al' /\ (ip ∉ allocated (nc_allocator net)) /\
    container_networks st' = container_networks st_new.
Proof.
  do 5 eexists.
  split; [simpl; lia|]. split; [vm_compute; reflexivity|].
  split; [vm_compute; reflexivity|]. split; [apply surjective_pairing|].
  eapply (short_id_bridge_leaks env_ok "c-1" 7 "bridge" [] st_new);
    [simpl; lia|vm_compute; reflexivity|vm_compute; reflexivity|apply surjective_pairing].
Defined.


(** Extra property (X6, [NetworkNamespace::enter]): when the [setns] into
    the target namespace fails, [enter] returns an error without running
    its block; at most that one [setns] attempt is made. *)
Theorem enter_without_entry {A} env pid (block : M A) st r st' :
  (forall t, pid_netns env pid = Some t -> setns_ok env t = false) ->
  enter env pid block st = (r, st') ->
  (exists e, r = Err e) /\
  (st' = st \/ exists t, pid_netns env pid = Some t /\ st' = push_setns t st).
Proof.
  intros Hf H. unfold enter in H.
  destruct (self_ns_open_ok env).
  2:{ cbv [bind fail] in H. injection H as <- <-. eauto. }
  rewrite bind_gets in H.
  destruct (pid_netns env pid) as [t|] eqn:Ep.
  2:{ cbv [bind fail] in H. injection H as <- <-. eauto. }
  rewrite bind_ret in H. cbv [bind setns] in H. rewrite (Hf t eq_refl) in H.
  injection H as <- <-. split; [eauto|]. right. eauto.
Qed.

Lemma enter_without_entry_witness :
  (forall t, pid_netns env_no_setns 42 = Some t -> setns_ok env_no_setns t = false) /\
  (exists e, fst (setup_loopback env_no_setns 42 st_new) = Err e) /\
  (snd (setup_loopback env_no_setns 42 st_new) = st_new \/
   exists t, pid_netns env_no_setns 42 = Some t /\
             snd (setup_loopback env_no_setns 42 st_new) = push_setns t st_new).
Proof.
  assert (Hf : forall t, pid_netns env_no_setns 42 = Some t -> setns_ok env_no_setns t = false)
    by reflexivity.
  split; [exact Hf|]. unfold setup_loopback.
  eapply (enter_without_entry env_no_setns 42 _ st_new); [exact Hf|].
  apply surjective_pairing.
Defined.

Lemma substring_min m s :
  String.substring 0 (Nat.min m (String.length s)) s = String.substring 0 m s.
Proof.
  revert m; induction s as [|a s IH]; intros m.
  - destruct m; reflexivity.
  - destruct m as [|m]; [reflexivity|]. simpl. rewrite IH. reflexivity.
Qed.

Lemma iter_nth_1 sn gw :
  iter_nth sn 1 = Some gw -> gw = network_addr sn + 1 /\ nw_prefix sn < 32.
Proof.
  unfold iter_nth, nw_size. destruct (_ && _) eqn:E; [|discriminate].
  intros [= <-]. split; [reflexivity|].
  apply andb_prop in E as [_ E]. apply Z.ltb_lt in E.
  destruct (Z_lt_le_dec (nw_prefix sn) 32) as [?|Hge]; [assumption|].
  destruct (Z.eq_dec (32 - nw_prefix sn) 0) as [E0|Hne].
  - rewrite E0 in E. simpl in E. lia.
  - rewrite Z.pow_neg_r in E by lia. lia.
Qed.

Lemma create_network_cfg env name s st st' :
  create_network env name s st = (Ok tt, st') ->
  exists sn, parse_cidr s = Some sn /\ nw_prefix sn < 32 /\
    networks st' = <[name := mkNetworkConfig name
                      (mkBridge (if String.eqb name "bridge" then "corerun0"
                                 else ("br-" ++ String.substring 0 8 name)%string))
                      sn (network_addr sn + 1) (mkIpAllocator sn ∅)]> (networks st) /\
    container_networks st' = container_networks st.
Proof.
  unfold create_network. intros H.
  destruct (parse_cidr s) as [subnet|] eqn:Hp; [|cbv [bind fail] in H; congruence].
  rewrite bind_ret in H.
  set (bn := if String.eqb name "bridge" then "corerun0"
             else ("br-" ++ String.substring 0 8 name)%string).
  assert (Hb : (exists st1, (if String.eqb name "bridge" then ret "corerun0"
                 else let! pre := slice name 0 (Nat.min 8 (String.length name)) in
                      ret ("br-" ++ pre)%string) st = (Ok bn, st1) /\ same_maps st st1) \/
               forall r st1, (if String.eqb name "bridge" then ret "corerun0"
                 else let! pre := slice name 0 (Nat.min 8 (String.length name)) in
                      ret ("br-" ++ pre)%string) st = (r, st1) -> forall b, r <> Ok b).
  { subst bn. destruct (String.eqb name "bridge").
    - left. exists st. split; [reflexivity|apply same_maps_refl].
    - unfold slice, bind. destruct (_ && _ && _).
      + left. exists st. split; [|apply same_maps_refl]. cbv [ret].
        rewrite Nat.sub_0_r, substring_min. reflexivity.
      + right. intros r st1 [= <- _]. discriminate. }
  unfold bind at 1 in H.
  destruct Hb as [(st1 & Eb & Hs1)|Hb].
  2:{ destruct (_ st) as [[b|e|p] st1] eqn:E in H; [|discriminate H ..].
      exfalso. exact (Hb _ _ E b eq_refl). }
  rewrite Eb in H. fold bn in H.
  ok_keep H.
  match type of H with context [iter_nth ?x 1] =>
    destruct (iter_nth x 1) as [gw|] eqn:Hg; [|cbv [bind panic] in H; congruence]
  end.
  apply iter_nth_1 in Hg as [-> Hpre].
  do 5 ok_keep H.
  cbv [ret bind gets modify] in H. simplify_eq.
  repeat match goal with Hs : same_maps _ _ |- _ => destruct Hs end.
  simpl.
  repeat match goal with
         | E : networks ?a = networks ?b |- context [networks ?a] =>
             assert_fails (unify a b); rewrite E
         | E : container_networks ?a = container_networks ?b |- context [container_networks ?a] =>
             assert_fails (unify a b); rewrite E
         end.
  exists subnet. split; [reflexivity|]. split; [exact Hpre|]. split; reflexivity.
Qed.

(** Extra property (X7, [NetworkManager::create_network]): a successful
    call records, under its name, the parsed subnet (a prefix below 32),
    the gateway network+1, an empty allocator and the bridge [corerun0] or
    ["br-"] followed by the first 8 bytes of the name; the container map is
    untouched. *)
Theorem create_network_records env name subnet st st' :
  create_network env name subnet st = (Ok tt, st') ->
  exists sn, parse_cidr subnet = Some sn /\ nw_prefix sn < 32 /\
    networks st' = <[name := mkNetworkConfig name
                      (mkBridge (if String.eqb name "bridge" then "corerun0"
                                 else ("br-" ++ String.substring 0 8 name)%string))
                      sn (network_addr sn + 1) (mkIpAllocator sn ∅)]> (networks st) /\
    container_networks st' = container_networks st.
Proof. apply create_network_cfg. Qed.

Lemma create_network_records_witness :
  exists st',
    create_network env_ok "frontend" "10.1.0.7/24" st_new = (Ok tt, st') /\
    exists sn, parse_cidr "10.1.0.7/24" = Some sn /\ nw_prefix sn < 32 /\
    networks st' = <["frontend" := mkNetworkConfig "frontend"
                      (mkBridge (if String.eqb "frontend" "bridge" then "corerun0"
                                 else ("br-" ++ String.substring 0 8 "frontend")%string))
                      sn (network_addr sn + 1) (mkIpAllocator sn ∅)]> (networks st_new) /\
    container_networks st' = container_networks st_new.
Proof.
  eexists. split; [vm_compute; reflexivity|].
  apply (create_network_records env_ok "frontend" "10.1.0.7/24" st_new).
  vm_compute. reflexivity.
Defined.

(** Extra property (X8, [NetworkManager::create_network]): two networks
    other than ["bridge"] whose names share their first 8 bytes get the
    same bridge device. *)
Theorem create_network_bridge_collision env1 env2 n1 n2 s1 s2 st1 st1' st2 st2' :
  n1 <> "bridge" -> n2 <> "bridge" ->
  String.substring 0 8 n1 = String.substring 0 8 n2 ->
  create_network env1 n1 s1 st1 = (Ok tt, st1') ->
  create_network env2 n2 s2 st2 = (Ok tt, st2') ->
  exists c1 c2, networks st1' !! n1 = Some c1 /\ networks st2' !! n2 = Some c2 /\
    nc_bridge c1 = nc_bridge c2.
Proof.
  intros H1 H2 Hp C1 C2.
  apply create_network_cfg in C1 as (sn1 & _ & _ & E1 & _).
  apply create_network_cfg in C2 as (sn2 & _ & _ & E2 & _).
  rewrite E1, E2, !lookup_insert_eq.
  apply String.eqb_neq in H1, H2. rewrite H1, H2, Hp.
  do 2 eexists. split; [reflexivity|]. split; reflexivity.
Qed.

Lemma create_network_bridge_collision_witness :
  exists st1' st2',
    "frontend-a" <> "bridge" /\ "frontend-b" <> "bridge" /\
    String.substring 0 8 "frontend-a" = String.substring 0 8 "frontend-b" /\
    create_network env_ok "frontend-a" "10.1.0.0/24" st_new = (Ok tt, st1') /\
    create_network env_ok "frontend-b" "10.2.0.0/24" st1' = (Ok tt, st2') /\
    exists c1 c2, networks st1' !! "frontend-a" = Some c1 /\
      networks st2' !! "frontend-b" = Some c2 /\ nc_bridge c1 = nc_bridge c2.
Proof.
  set (st1 := snd (create_network env_ok "frontend-a" "10.1.0.0/24" st_new)).
  set (st2 := snd (create_network env_ok "frontend-b" "10.2.0.0/24" st1)).
  assert (E1 : create_network env_ok "frontend-a" "10.1.0.0/24" st_new = (Ok tt, st1))
    by (subst st1; vm_compute; reflexivity).
  assert (E2 : create_network env_ok "frontend-b" "10.2.0.0/24" st1 = (Ok tt, st2))
    by (subst st2 st1; vm_compute; reflexivity).
  assert (H1 : "frontend-a" <> "bridge") by discriminate.
  assert (H2 : "frontend-b" <> "bridge") by discriminate.
  assert (Hp : String.substring 0 8 "frontend-a" = String.substring 0 8 "frontend-b")
    by reflexivity.
  exists st1, st2.
  exact (conj H1 (conj H2 (conj Hp (conj E1 (conj E2
           (create_network_bridge_collision env_ok env_ok "frontend-a" "frontend-b"
              "10.1.0.0/24" "10.2.0.0/24" st_new st1 st1 st2 H1 H2 Hp E1 E2)))))).
Defined.

(** Extra property (X9, [NetworkManager::_delete_network]): deleting a
    known network removes it from the map and runs exactly [ip link
    delete] on its bridge and the two [FORWARD] deletions; the name
    ["bridge"] gets no special treatment and no [POSTROUTING] rule is
    removed. *)
Theorem delete_network_commands env name st net :
  networks st !! name = Some net ->
  cmd_output env ["ip"; "link"; "delete"; bridge_name (nc_bridge net)] <> Datatypes.None ->
  _delete_network env name st =
    (Ok tt,
     push_cmd ["iptables"; "-D"; "FORWARD"; "-o"; bridge_name (nc_bridge net); "-j"; "ACCEPT"]
       (push_cmd ["iptables"; "-D"; "FORWARD"; "-i"; bridge_name (nc_bridge net); "-j"; "ACCEPT"]
          (push_cmd ["ip"; "link"; "delete"; bridge_name (nc_bridge net)]
             (set_networks (delete name (networks st)) st)))).
Proof.
  intros Hn Hs. unfold _delete_network. rewrite bind_gets, Hn, bind_modify.
  cbv [bridge_delete cleanup_nat output_or ignore try_ bind run_cmd ret fail].
  destruct (cmd_output env _) as [o|] eqn:E; [reflexivity|]. simpl in E. contradiction.
Qed.

Lemma delete_network_commands_witness :
  exists net,
    networks st_new !! "bridge" = Some net /\
    cmd_output env_ok ["ip"; "link"; "delete"; bridge_name (nc_bridge net)] <> Datatypes.None /\
    _delete_network env_ok "bridge" st_new =
    (Ok tt,
     push_cmd ["iptables"; "-D"; "FORWARD"; "-o"; bridge_name (nc_bridge net); "-j"; "ACCEPT"]
       (push_cmd ["iptables"; "-D"; "FORWARD"; "-i"; bridge_name (nc_bridge net); "-j"; "ACCEPT"]
          (push_cmd ["ip"; "link"; "delete"; bridge_name (nc_bridge net)]
             (set_networks (delete "bridge" (networks st_new)) st_new)))).
Proof.
  eexists. split; [vm_compute; reflexivity|]. split; [discriminate|].
  apply delete_network_commands; [vm_compute; reflexivity|discriminate].
Defined.

Lemma substring_all s : String.substring 0 (String.length s) s = s.
Proof. induction s as [|a s IH]; [reflexivity|]. simpl. rewrite IH. reflexivity. Qed.

Lemma prefix_split p s :
  String.prefix p s = true ->
  s = (p ++ String.substring (String.length p) (String.length s - String.length p) s)%string.
Proof.
  revert s; induction p as [|c p IH]; intros s H.
  - rewrite str_app_nil_l. simpl. rewrite Nat.sub_0_r, substring_all. reflexivity.
  - destruct s as [|c' s]; [discriminate|]. simpl in H.
    destruct (Ascii.ascii_dec c c') as [<-|]; [|discriminate].
    rewrite str_app_cons. simpl. f_equal. apply IH. exact H.
Qed.

(** Extra property (X10, [parse_args]): the [--network] value maps to the
    container mode only with the ["container:"] prefix, to host and none
    only for exactly ["host"] and ["none"], and to the ["bridge"] network
    in every other case. *)
Theorem network_mode_of_cases network_str :
  match network_mode_of network_str with
  | NetworkMode.Bridge n => n = "bridge"
  | NetworkMode.Host => network_str = "host"
  | NetworkMode.None => network_str = "none"
  | NetworkMode.Container id => network_str = ("container:" ++ id)%string
  end.
Proof.
  unfold network_mode_of.
  destruct (String.prefix "container:" network_str) eqn:Ep.
  - exact (prefix_split _ _ Ep).
  - destruct (String.eqb network_str "bridge"); [reflexivity|].
    destruct (String.eqb network_str "host") eqn:Eh; [apply String.eqb_eq; exact Eh|].
    destruct (String.eqb network_str "none") eqn:En; [apply String.eqb_eq; exact En|].
    reflexivity.
Qed.

(** Extra property (X1, [PortMapping::parse]): for decimal ports below
    10^20, ["HOST:CONTAINER"] parses to a TCP mapping when both ports fit
    in 16 bits; otherwise the host port is checked first and the error
    quotes the offending text. *)
Theorem port_mapping_parse_decimal hp cp :
  0 <= hp < 10 ^ 20 -> 0 <= cp < 10 ^ 20 ->
  PortMapping_parse (z_to_dec hp ++ ":" ++ z_to_dec cp) =
    if hp <=? 65535 then
      if cp <=? 65535 then Ok (mkPortMapping hp cp Protocol.TCP)
      else Err (Network ("Invalid container port: " ++ z_to_dec cp))
    else Err (Network ("Invalid host port: " ++ z_to_dec hp)).
Proof.
  intros Hh Hc. unfold PortMapping_parse.
  rewrite (str_app_cons ":" "" (z_to_dec cp)), str_app_nil_l.
  rewrite split_on_only.
  2:{ rewrite list_ascii_app. apply Forall_app. split.
      - apply digits_not; [reflexivity|apply z_to_dec_chars].
      - simpl. constructor; [discriminate|]. apply digits_not; [reflexivity|apply z_to_dec_chars]. }
  simpl List.hd. cbv iota beta.
  rewrite split_dec_sep by reflexivity. rewrite split_dec_only by reflexivity.
  unfold parse_u16. rewrite !parse_uint_dec by lia.
  destruct (hp <=? 65535); [|reflexivity]. destruct (cp <=? 65535); reflexivity.
Qed.

Lemma port_mapping_parse_decimal_witness :
  0 <= 70000 < 10 ^ 20 /\ 0 <= 80 < 10 ^ 20 /\
  PortMapping_parse (z_to_dec 70000 ++ ":" ++ z_to_dec 80) =
    (if 70000 <=? 65535 then
      if 80 <=? 65535 then Ok (mkPortMapping 70000 80 Protocol.TCP)
      else Err (Network ("Invalid container port: " ++ z_to_dec 80))
    else Err (Network ("Invalid host port: " ++ z_to_dec 70000))).
Proof.
  split; [lia|]. split; [lia|]. apply port_mapping_parse_decimal; lia.
Defined.

Lemma split_sep c a s :
  Forall (fun x => x <> c) (list_ascii_of_string a) ->
  split_on c (a ++ String c s) = a :: split_on c s.
Proof.
  intros Ha. rewrite split_on_app by exact Ha.
  simpl. rewrite Ascii.eqb_refl, string_app_nil_r. reflexivity.
Qed.

Lemma split_on_length_sep c a r :
  (length (split_on c (a ++ String c r)) >= S (length (split_on c r)))%nat.
Proof.
  induction a as [|x a IH].
  - rewrite str_app_nil_l. simpl. rewrite Ascii.eqb_refl. simpl. lia.
  - rewrite str_app_cons. cbn [split_on].
    destruct (Ascii.eqb x c); [simpl; lia|].
    destruct (split_on c (a ++ String c r)) eqn:E; simpl in *; lia.
Qed.

Lemma split_on_length_pos c s : (length (split_on c s) >= 1)%nat.
Proof. destruct (split_on c s) eqn:E; [exfalso; exact (split_on_nonempty c s E)|simpl; lia]. Qed.

(** Extra property (X11, [VolumeMount::parse]): for colon-free parts and
    an absolute destination, ["src:dst"], ["src:dst:ro"] and
    ["src:dst:rw"] parse back to their parts, and a lone destination takes
    the anonymous volume as its source. *)
Theorem volume_parse_roundtrip anon src dst (ro : bool) :
  no_colon src -> no_colon dst -> path_is_absolute dst = true ->
  VolumeMount_parse anon (src ++ ":" ++ dst)%string = Ok (mkVolumeMount src dst false) /\
  VolumeMount_parse anon (src ++ ":" ++ dst ++ ":" ++ (if ro then "ro" else "rw"))%string =
    Ok (mkVolumeMount src dst ro) /\
  (forall a, anon = Ok a -> VolumeMount_parse anon dst = Ok (mkVolumeMount a dst false)).
Proof.
  intros Hs Hd Ha. unfold VolumeMount_parse.
  rewrite !(str_app_cons ":" ""), !str_app_nil_l.
  rewrite !split_sep by assumption.
  rewrite !split_on_only by (assumption || (destruct ro; repeat constructor; discriminate)).
  rewrite Ha. simpl negb. cbv iota beta.
  split; [reflexivity|]. split.
  - destruct ro; reflexivity.
  - intros a ->. reflexivity.
Qed.

(** Extra property (X12, [VolumeMount::parse]): with three parts the mode
    is checked before the destination, and the error for a relative
    destination quotes the mode, not the path. *)
Theorem volume_parse_mode_checked_first anon src dst m :
  no_colon src -> no_colon dst -> no_colon m ->
  VolumeMount_parse anon (src ++ ":" ++ dst ++ ":" ++ m)%string =
    if (String.eqb m "ro" || String.eqb m "rw")%bool then
      if path_is_absolute dst then Ok (mkVolumeMount src dst (String.eqb m "ro"))
      else Err (Volume ("Container path must be absolute: " ++ m)%string)
    else Err (InvalidConfiguration ("Invalid mount mode: " ++ m)%string).
Proof.
  intros Hs Hd Hm. unfold VolumeMount_parse.
  rewrite !(str_app_cons ":" ""), !str_app_nil_l.
  rewrite !split_sep by assumption. rewrite split_on_only by assumption.
  cbv iota beta.
  destruct (String.eqb m "ro") eqn:Ero.
  - destruct (path_is_absolute dst); reflexivity.
  - destruct (String.eqb m "rw"); [|reflexivity].
    destruct (path_is_absolute dst); reflexivity.
Qed.

(** Extra property (X13, [VolumeMount::parse]): a volume string with three
    or more colons is rejected as an invalid mount format. *)
Theorem volume_parse_too_many_parts anon a b c d :
  VolumeMount_parse anon (a ++ ":" ++ b ++ ":" ++ c ++ ":" ++ d)%string =
    Err (InvalidConfiguration "Invalid mount format"%string).
Proof.
  unfold VolumeMount_parse. rewrite !(str_app_cons ":" ""), !str_app_nil_l.
  pose proof (split_on_length_sep ":" a (b ++ String ":" (c ++ String ":" d))) as H1.
  pose proof (split_on_length_sep ":" b (c ++ String ":" d)) as H2.
  pose proof (split_on_length_sep ":" c d) as H3.
  pose proof (split_on_length_pos ":" d) as H4.
  destruct (split_on ":" (a ++ String ":" (b ++ String ":" (c ++ String ":" d))))
    as [|p0 [|p1 [|p2 [|p3 ps]]]]; simpl in H1; try lia. reflexivity.
Qed.

Lemma volume_parse_roundtrip_witness :
  no_colon "/srv/data" /\ no_colon "/data" /\ path_is_absolute "/data" = true /\
  VolumeMount_parse (Ok "/tmp/CoreRun/vol_1") ("/srv/data" ++ ":" ++ "/data")%string =
    Ok (mkVolumeMount "/srv/data" "/data" false) /\
  VolumeMount_parse (Ok "/tmp/CoreRun/vol_1")
    ("/srv/data" ++ ":" ++ "/data" ++ ":" ++ (if true then "ro" else "rw"))%string =
    Ok (mkVolumeMount "/srv/data" "/data" true) /\
  (forall a, Ok "/tmp/CoreRun/vol_1"%string = Ok a ->
     VolumeMount_parse (Ok "/tmp/CoreRun/vol_1"%string) "/data" = Ok (mkVolumeMount a "/data" false)).
Proof.
  assert (Hs : no_colon "/srv/data") by (unfold no_colon; simpl; repeat constructor; discriminate).
  assert (Hd : no_colon "/data") by (unfold no_colon; simpl; repeat constructor; discriminate).
  split; [exact Hs|]. split; [exact Hd|]. split; [reflexivity|].
  exact (volume_parse_roundtrip (Ok "/tmp/CoreRun/vol_1"%string) "/srv/data" "/data" true Hs Hd eq_refl).
Defined.

Lemma volume_parse_mode_checked_first_witness :
  no_colon "/srv" /\ no_colon "data" /\ no_colon "ro" /\
  VolumeMount_parse (Ok "/tmp/CoreRun/vol_1") ("/srv" ++ ":" ++ "data" ++ ":" ++ "ro")%string =
    (if (String.eqb "ro" "ro" || String.eqb "ro" "rw")%bool then
      if path_is_absolute "data" then Ok (mkVolumeMount "/srv" "data" (String.eqb "ro" "ro"))
      else Err (Volume ("Container path must be absolute: " ++ "ro")%string)
    else Err (InvalidConfiguration ("Invalid mount mode: " ++ "ro")%string)).
Proof.
  assert (H1 : no_colon "/srv") by (unfold no_colon; simpl; repeat constructor; discriminate).
  assert (H2 : no_colon "data") by (unfold no_colon; simpl; repeat constructor; discriminate).
  assert (H3 : no_colon "ro") by (unfold no_colon; simpl; repeat constructor; discriminate).
  split; [exact H1|]. split; [exact H2|]. split; [exact H3|].
  exact (volume_parse_mode_checked_first (Ok "/tmp/CoreRun/vol_1"%string) "/srv" "data" "ro" H1 H2 H3).
Defined.

(** Extra property (X14, [ProcessManager::wait_for_child]): the wait
    succeeds exactly when the answers of [waitpid] are [EINTR] or other
    statuses up to an exit with status 0. *)
Theorem wait_for_child_ok_iff answers :
  wait_for_child answers = Some (Ok tt) <->
  exists skips rest, answers = skips ++ WaitOk (Exited 0) :: rest /\
    List.Forall (fun w => w = WaitEintr \/ w = WaitOk OtherStatus) skips.
Proof.
  split.
  - induction answers as [|w ws IH]; [discriminate|].
    destruct w as [[st|sig|]| |e]; simpl; intros H.
    + destruct (st =? 0) eqn:E; [|discriminate]. apply Z.eqb_eq in E as ->.
      exists [], ws. split; [reflexivity|constructor].
    + discriminate.
    + destruct (IH H) as (sk & r & -> & Hs).
      exists (WaitOk OtherStatus :: sk), r. split; [reflexivity|]. constructor; auto.
    + destruct (IH H) as (sk & r & -> & Hs).
      exists (WaitEintr :: sk), r. split; [reflexivity|]. constructor; auto.
    + discriminate.
  - intros (sk & r & -> & Hs). induction Hs as [|w sk [-> | ->] _ IH]; simpl; auto.
Qed.

Lemma collect_res_map_ok {A} (l : list A) : collect_res (map Ok l) = Ok l.
Proof. induction l as [|a l IH]; simpl; [reflexivity|]. rewrite IH. reflexivity. Qed.

Lemma tbind_ok {A B} (m : TM A) (k : A -> TM B) tr a tr' :
  m tr = (Ok a, tr') -> tbind m k tr = k a tr'.
Proof. intros E. unfold tbind. rewrite E. reflexivity. Qed.

Lemma tbind_err {A B} (m : TM A) (k : A -> TM B) tr e tr' :
  m tr = (Err e, tr') -> tbind m k tr = (Err e, tr').
Proof. intros E. unfold tbind. rewrite E. reflexivity. Qed.

Lemma cleanup_volume_trace op_res rootfs vs tr :
  (forall o p, op_res o <> Panic p) ->
  cleanup_volume op_res rootfs vs tr =
    (Ok tt, tr ++ map (fun v => Unmount (path_join rootfs (strip_root (dest v)))) (rev vs)).
Proof.
  intros Hp. unfold cleanup_volume. generalize (rev vs) as l. intros l. revert tr.
  induction l as [|v l IH]; intros tr; simpl.
  - rewrite app_nil_r. reflexivity.
  - unfold tbind at 1, tignore at 1, op at 1.
    destruct (op_res _) as [u|e|p] eqn:E;
      [| |exfalso; exact (Hp _ _ E)]; rewrite IH, <- app_assoc; reflexivity.
Qed.

Lemma setup_volume_trace op_res pe v tr :
  (forall o, is_volume_mount o = false -> op_res o = Ok tt) ->
  exists ext, setup_volume op_res pe v tr = (Ok tt, tr ++ ext) /\
              List.filter is_volume_mount ext = [].
Proof.
  intros Ho. unfold setup_volume, tbind, tret, op.
  destruct (negb (pe (source v))); rewrite ?Ho by reflexivity.
  - eexists. rewrite <- app_assoc. split; reflexivity.
  - eexists. split; reflexivity.
Qed.

Lemma tfor_setup_volume_trace op_res pe l tr :
  (forall o, is_volume_mount o = false -> op_res o = Ok tt) ->
  exists ext, tfor (setup_volume op_res pe) l tr = (Ok tt, tr ++ ext) /\
              List.filter is_volume_mount ext = [].
Proof.
  intros Ho. revert tr. induction l as [|v l IH]; intros tr; simpl.
  - exists []. rewrite app_nil_r. split; reflexivity.
  - destruct (setup_volume_trace op_res pe v tr Ho) as (e1 & E1 & F1).
    rewrite (tbind_ok _ _ _ _ _ E1).
    destruct (IH (tr ++ e1)) as (e2 & -> & F2).
    exists (e1 ++ e2). rewrite <- app_assoc. split; [reflexivity|].
    rewrite List.filter_app, F1, F2. reflexivity.
Qed.

Lemma mount_volume_bind_fails e pe rootfs v tr :
  exists pre,
    mount_volume (fun o => match o with BindMount _ _ => Err e | _ => Ok tt end) pe rootfs v tr =
      (Err e, tr ++ pre ++ [BindMount (source v) (path_join rootfs (strip_root (dest v)))]) /\
    List.filter is_volume_mount pre = [].
Proof.
  unfold mount_volume, tbind, tret, op.
  destruct (negb _); cbn.
  - eexists. rewrite <- app_assoc. split; reflexivity.
  - exists []. split; reflexivity.
Qed.

(** Extra property (X15, [ImplVolume::setup_volumes],
    [run_container_with_sync]): when every bind mount fails, the container
    process still runs the command and ends with [Ok]; only the first
    volume's bind mount is attempted. *)
Theorem failed_bind_mount_not_fatal e pe c v vs :
  parsed_volumes c = map Ok (v :: vs) ->
  exists tr,
    run_container_with_sync (fun o => match o with BindMount _ _ => Err e | _ => Ok tt end)
      pe c [] = (Ok tt, tr) /\
    In ExecuteCommand tr /\
    List.filter is_volume_mount tr = [BindMount (source v) (path_join (rootfs c) (strip_root (dest v)))].
Proof.
  intros Ep. set (F := fun o => match o with BindMount _ _ => Err e | _ => Ok tt end).
  assert (HF : forall o, is_volume_mount o = false -> F o = Ok tt).
  { intros [] H; try reflexivity; discriminate. }
  assert (HP : forall o p, F o <> Panic p). { intros [] p; discriminate. }
  assert (Hcg : exists cg,
    (if has_limits c then let? _ := op F CgroupNew in let? _ := op F CgroupSetup in op F CgroupAddProcess
     else tret tt) [] = (Ok tt, cg) /\ List.filter is_volume_mount cg = []).
  { destruct (has_limits c); eexists; split; reflexivity. }
  destruct Hcg as (cg & Ecg & Fcg).
  destruct (tfor_setup_volume_trace F pe (v :: vs) cg HF) as (ext & Eext & Fext).
  destruct (mount_volume_bind_fails e pe (rootfs c) v (cg ++ ext)) as (pre & Epre & Fpre).
  fold F in Epre.
  assert (Hsv : setup_volumes F pe (map Ok (v :: vs)) (rootfs c) cg =
    (Ok (v :: vs), cg ++ ext ++ pre ++ [BindMount (source v) (path_join (rootfs c) (strip_root (dest v)))])).
  { unfold setup_volumes. rewrite collect_res_map_ok.
    rewrite (tbind_ok _ _ _ _ _ (eq_refl : tlift (Ok (v :: vs)) cg = (Ok (v :: vs), cg))).
    rewrite (tbind_ok _ _ _ _ _ Eext).
    assert (Efs : setup_fs F pe (rootfs c) (v :: vs) (cg ++ ext) =
      (Err e, (cg ++ ext) ++ pre ++ [BindMount (source v) (path_join (rootfs c) (strip_root (dest v)))])).
    { unfold setup_fs. simpl tfor. exact (tbind_err _ _ _ _ _ Epre). }
    unfold tbind at 1, tignore at 1. rewrite Efs.
    unfold tret. rewrite <- app_assoc. reflexivity. }
  assert (Hvol : (match parsed_volumes c with
                  | [] => tret Datatypes.None
                  | _ => let? v := setup_volumes F pe (parsed_volumes c) (rootfs c) in tret (Some v)
                  end) cg =
                 (Ok (Some (v :: vs)),
                  cg ++ ext ++ pre ++ [BindMount (source v) (path_join (rootfs c) (strip_root (dest v)))])).
  { rewrite Ep. cbn [map]. unfold tbind at 1.
    change (Ok v :: map Ok vs) with (map Ok (v :: vs)). rewrite Hsv. reflexivity. }
  unfold run_container_with_sync.
  rewrite (tbind_ok _ _ _ _ _ Ecg), (tbind_ok _ _ _ _ _ Hvol).
  do 7 (erewrite tbind_ok by reflexivity).
  unfold tbind at 1, tignore at 1. rewrite cleanup_volume_trace by exact HP.
  cbv beta iota. unfold tret.
  eexists. split; [reflexivity|]. split.
  - rewrite !in_app_iff. cbn. intuition auto.
  - rewrite !List.filter_app, Fcg, Fext, Fpre.
    generalize (rev (v :: vs)) as l. intros l.
    induction l as [|w l IH]; cbn in *; auto.
Qed.

Lemma failed_bind_mount_not_fatal_witness :
  parsed_volumes sample_config = map Ok [mkVolumeMount "/data" "/data" false] /\
  exists tr,
    run_container_with_sync
      (fun o => match o with BindMount _ _ => Err (Filesystem "EPERM") | _ => Ok tt end)
      (fun _ => true) sample_config [] = (Ok tt, tr) /\
    In ExecuteCommand tr /\
    List.filter is_volume_mount tr =
      [BindMount "/data" (path_join (rootfs sample_config) (strip_root "/data"))].
Proof.
  split; [reflexivity|].
  exact (failed_bind_mount_not_fatal (Filesystem "EPERM") (fun _ => true) sample_config
           (mkVolumeMount "/data" "/data" false) [] eq_refl).
Defined.


Lemma first_free_some (s : gset Z) a n ip :
  first_free s a n = Some ip ->
  a <= ip < a + Z.of_nat n /\ (ip ∉ s) /\ (forall b, a <= b < ip -> b ∈ s).
Proof.
  revert a; induction n as [|n IH]; intros a; simpl; [discriminate|].
  case_decide as Ha.
  - intros E. destruct (IH (a + 1) E) as (H1 & H2 & H3).
    split; [lia|]. split; [exact H2|]. intros b Hb.
    destruct (decide (b = a)) as [->|]; [exact Ha|]. apply H3. lia.
  - intros [= <-]. split; [lia|]. split; [exact Ha|]. intros b Hb. lia.
Qed.

Lemma first_free_none (s : gset Z) a n :
  first_free s a n = Datatypes.None -> forall b, a <= b < a + Z.of_nat n -> b ∈ s.
Proof.
  revert a; induction n as [|n IH]; intros a; simpl; [intros _ b Hb; lia|].
  case_decide as Ha; [|discriminate].
  intros E b Hb. destruct (decide (b = a)) as [->|]; [exact Ha|]. apply (IH (a + 1) E). lia.
Qed.

(** Extra property (X16, [IpAllocator::allocate]): on success the address
    is the lowest candidate from network+2 up to the last address of the
    subnet that is not held after the scan, and it is added to the set;
    on failure every candidate is held and the allocator is the scanned
    one. *)
Theorem allocate_first_fit ping al :
  let net := network_addr (subnet al) in
  let size := nw_size (subnet al) in
  let scanned := allocated (scan_existing_ips ping al) in
  match allocate ping al with
  | (Ok ip, al') =>
      net + 2 <= ip < net + size /\ (ip ∉ scanned) /\
      (forall a, net + 2 <= a < ip -> a ∈ scanned) /\
      subnet al' = subnet al /\ allocated al' = {[ip]} ∪ scanned
  | (Err e, al') =>
      e = Network "No available IPs in subnet" /\ al' = scan_existing_ips ping al /\
      (forall a, net + 2 <= a < net + size -> a ∈ allocated al')
  | (Panic _, _) => False
  end.
Proof.
  cbv zeta. unfold allocate. cbv zeta.
  change (subnet (scan_existing_ips ping al)) with (subnet al).
  destruct (first_free _ _ _) as [ip|] eqn:E.
  - apply first_free_some in E as (H1 & H2 & H3).
    split; [|split; [exact H2|split; [exact H3|split; reflexivity]]].
    destruct (Z.le_gt_cases 2 (nw_size (subnet al))).
    + rewrite Z2Nat.id in H1 by lia. lia.
    + rewrite Z2Nat.nonpos in H1 by lia. simpl in H1. lia.
  - split; [reflexivity|]. split; [reflexivity|]. intros a Ha.
    apply (first_free_none _ _ _ E).
    destruct (Z.le_gt_cases 2 (nw_size (subnet al))).
    + rewrite Z2Nat.id by lia. lia.
    + lia.
Qed.

Lemma scan_from_spec ping a n (s : gset Z) b :
  b ∈ scan_from ping a n s <-> b ∈ s \/ (a <= b < a + Z.of_nat n /\ ping b = true).
Proof.
  revert a s; induction n as [|n IH]; intros a s; simpl.
  - split; [tauto|]. intros [H|[H _]]; [exact H|lia].
  - rewrite IH. destruct (ping a) eqn:Ea.
    + rewrite elem_of_union, elem_of_singleton. split.
      * intros [[->|H]|[H1 H2]]; [right; split; [lia|exact Ea]|left; exact H|right; split; [lia|exact H2]].
      * intros [H|[H1 H2]]; [left; right; exact H|].
        destruct (decide (b = a)) as [->|]; [left; left; reflexivity|right; split; [lia|exact H2]].
    + split.
      * intros [H|[H1 H2]]; [left; exact H|right; split; [lia|exact H2]].
      * intros [H|[H1 H2]]; [left; exact H|].
        destruct (decide (b = a)) as [->|]; [congruence|right; split; [lia|exact H2]].
Qed.

(** Extra property (X17, [IpAllocator::scan_existing_ips]): the scan keeps
    every held address and adds exactly the answering addresses among the
    first 20 candidates from network+2. *)
Theorem scan_existing_ips_members ping al b :
  subnet (scan_existing_ips ping al) = subnet al /\
  (b ∈ allocated (scan_existing_ips ping al) <->
   b ∈ allocated al \/
   (network_addr (subnet al) + 2 <= b < network_addr (subnet al) + 2 + Z.min 20 (nw_size (subnet al) - 2)
    /\ ping b = true)).
Proof.
  split; [reflexivity|]. unfold scan_existing_ips. cbn [allocated subnet].
  rewrite scan_from_spec.
  destruct (Z.le_gt_cases 0 (Z.min 20 (nw_size (subnet al) - 2))).
  - rewrite Z2Nat.id by lia. reflexivity.
  - rewrite Z2Nat.nonpos by lia. simpl. split; (intros [H1|[H1 H2]]; [left; exact H1|lia]).
Qed.

(** Extra property (X18, [cleanup_container_network]): for a container
    that is unknown or not on a bridge, cleanup succeeds, only forgets the
    id and runs the hairpin deletion as its one command. *)
Theorem cleanup_unbridged_container env id st :
  (forall cn, container_networks st !! id = Some cn -> forall n, mode cn <> NetworkMode.Bridge n) ->
  cleanup_container_network env id st =
    (Ok tt, push_cmd hairpin_delete_args
              (set_container_networks (delete id (container_networks st)) st)).
Proof.
  intros Hm.
  assert (Hmgr : manager_cleanup_container_network env id st =
                 (Ok tt, set_container_networks (delete id (container_networks st)) st)).
  { unfold manager_cleanup_container_network. unfold bind at 1, gets at 1. cbv beta iota.
    destruct (container_networks st !! id) as [cn|] eqn:E.
    - specialize (Hm cn eq_refl). unfold bind at 1, modify at 1. cbv beta iota.
      destruct (mode cn) as [n| | |t]; [exfalso; exact (Hm n eq_refl)|reflexivity|reflexivity|reflexivity].
    - rewrite delete_id by exact E. destruct st. reflexivity. }
  unfold cleanup_container_network. unfold bind at 1. rewrite Hmgr. reflexivity.
Qed.

Lemma cleanup_unbridged_container_witness :
  (forall cn, container_networks (snd (setup_container_network env_ok sample_id 4242 NetworkMode.Host [] st_new)) !! sample_id = Some cn ->
     forall n, mode cn <> NetworkMode.Bridge n) /\
  cleanup_container_network env_ok sample_id
    (snd (setup_container_network env_ok sample_id 4242 NetworkMode.Host [] st_new)) =
    (Ok tt, push_cmd hairpin_delete_args
              (set_container_networks
                 (delete sample_id (container_networks
                    (snd (setup_container_network env_ok sample_id 4242 NetworkMode.Host [] st_new))))
                 (snd (setup_container_network env_ok sample_id 4242 NetworkMode.Host [] st_new)))).
Proof.
  assert (H : forall cn, container_networks (snd (setup_container_network env_ok sample_id 4242 NetworkMode.Host [] st_new)) !! sample_id = Some cn ->
     forall n, mode cn <> NetworkMode.Bridge n).
  { intros cn Hc n. vm_compute in Hc. injection Hc as <-. discriminate. }
  split; [exact H|]. exact (cleanup_unbridged_container env_ok sample_id _ H).
Defined.
